(** * Hospital-Model-Audit-Website: the response interpreter of [backend/model.py]

    A shallow embedding of [AuditModel.analyze]: the rendering of the metrics
    block of the prompt, and the interpretation of the generated text (first
    [{] to last [}], [json.loads], the two fallback records).

    Python strings are sequences of code points, so a [str] is a list of [N].
    Indices are [Z], as [str.find] answers [-1] for "not found". *)

From Stdlib Require Import List NArith ZArith Lia Bool String Ascii DecimalString.
Import ListNotations.

Set Implicit Arguments.

(** ** Python [str] *)

Module PyStr.

Definition char := N.
Definition str := list char.

Definition code (a : ascii) : char := N_of_ascii a.

(** The double quote, U+0022. *)
Definition DQUOTE : char := 34%N.
Definition APOSTROPHE : char := 39%N.

Fixpoint of_string (s : string) : str :=
  match s with
  | EmptyString => []
  | String a r => code a :: of_string r
  end.

(** Literals of this file are written with an apostrophe wherever the
    Python text has a double quote. *)
Definition lit (s : string) : str :=
  map (fun c => if N.eqb c APOSTROPHE then DQUOTE else c) (of_string s).

Definition len (s : str) : Z := Z.of_nat (List.length s).

(** [s.find(c)] for a one-character needle: lowest index, or -1. *)
Fixpoint find_from (c : char) (s : str) (i : Z) : Z :=
  match s with
  | [] => (-1)%Z
  | x :: r => if N.eqb x c then i else find_from c r (i + 1)%Z
  end.

Definition find (s : str) (c : char) : Z := find_from c s 0%Z.

(** [s.rfind(c)]: highest index, or -1. *)
Fixpoint rfind_from (c : char) (s : str) (i last : Z) : Z :=
  match s with
  | [] => last
  | x :: r => rfind_from c r (i + 1)%Z (if N.eqb x c then i else last)
  end.

Definition rfind (s : str) (c : char) : Z := rfind_from c s 0%Z (-1)%Z.

(** Slice bounds as Python adjusts them: a negative index counts from the
    end, and both are clamped into [0, len]. *)
Definition adjust_index (n i : Z) : Z :=
  if (i <? 0)%Z then Z.max (i + n) 0 else Z.min i n.

(** [s[a:b]] *)
Definition slice (s : str) (a b : Z) : str :=
  let a' := adjust_index (len s) a in
  let b' := adjust_index (len s) b in
  firstn (Z.to_nat (b' - a')) (skipn (Z.to_nat a') s).

(** [str.isspace] on one code point (the Unicode White_Space characters
    together with the separators U+001C..U+001F). *)
Definition isspace (c : char) : bool :=
  ((9 <=? c) && (c <=? 13) || (28 <=? c) && (c <=? 32)
   || (c =? 133) || (c =? 160) || (c =? 5760)
   || (8192 <=? c) && (c <=? 8202)
   || (c =? 8232) || (c =? 8233) || (c =? 8239) || (c =? 8287)
   || (c =? 12288))%N.

Fixpoint lstrip (s : str) : str :=
  match s with
  | [] => []
  | c :: r => if isspace c then lstrip r else s
  end.

Definition rstrip (s : str) : str := rev (lstrip (rev s)).

(** [s.strip()] *)
Definition strip (s : str) : str := rstrip (lstrip s).

(** [sep.join(items)] *)
Fixpoint join (sep : str) (items : list str) : str :=
  match items with
  | [] => []
  | [x] => x
  | x :: rest => x ++ sep ++ join sep rest
  end.

(** [s.split(sep)] for a one-character separator. *)
Fixpoint split_on (sep : char) (s : str) : list str :=
  match s with
  | [] => [[]]
  | c :: r =>
      if N.eqb c sep then [] :: split_on sep r
      else match split_on sep r with
           | [] => [[c]]
           | w :: ws => (c :: w) :: ws
           end
  end.

(** The decimal text of an [int]: a minus sign for a negative one, then the
    digits.  It is what [str(z)] answers when it answers ([str_of_int]). *)
Definition int_repr (z : Z) : str :=
  of_string (NilEmpty.string_of_int (Z.to_int z)).

End PyStr.

Import PyStr.

(** ** Python values, exceptions and outcomes *)

(** The objects [json.loads] builds.  A [float] is kept as the text it was
    read from: no claim depends on its numeric value.  A [dict] is its list of
    items in insertion order, with distinct keys. *)
Unset Elimination Schemes.
Inductive pyobj : Type :=
| PyNone
| PyBool (b : bool)
| PyInt (z : Z)
| PyFloat (lexeme : str)
| PyStr (s : str)
| PyList (items : list pyobj)
| PyDict (items : list (str * pyobj)).
Set Elimination Schemes.

Inductive exn : Type :=
| StopIteration
| JSONDecodeError
| RecursionError
| ValueError.

(** What running a piece of Python gives: a value, a raised exception, or
    [Hang] when a loop of the model runs out of its iteration budget
    ([json_loads_never_hangs] shows the decoder never does). *)
Inductive result (A : Type) : Type :=
| Return (a : A)
| Raise (e : exn)
| Hang.

Arguments Raise {A} e.
Arguments Hang {A}.

Definition bind {A B : Type} (m : result A) (k : A -> result B) : result B :=
  match m with
  | Return a => k a
  | Raise e => Raise e
  | Hang => Hang
  end.

Declare Scope py_scope.
Delimit Scope py_scope with py.
Notation "x <- m ;; k" := (bind m (fun x => k))
  (at level 61, m at next level, right associativity) : py_scope.
Notation "' pat <- m ;; k" := (bind m (fun x => match x with pat => k end))
  (at level 61, pat pattern, m at next level, right associativity) : py_scope.

Definition exn_eqb (a b : exn) : bool :=
  match a, b with
  | StopIteration, StopIteration
  | JSONDecodeError, JSONDecodeError
  | RecursionError, RecursionError
  | ValueError, ValueError => true
  | _, _ => false
  end.

(** [try: m  except e: handler] *)
Definition try_except {A : Type} (m : result A) (e : exn) (handler : result A)
  : result A :=
  match m with
  | Raise e' => if exn_eqb e' e then handler else Raise e'
  | other => other
  end.

(** The limits of the running interpreter that [analyze] can hit:
    how many nested containers the decoder may still open before the
    recursion limit ([sys.getrecursionlimit()] less the frames already in
    use), and [sys.get_int_max_str_digits()], the most digits that [int(text)]
    and [str(number)] convert, where 0 switches the check off.  (CPython
    accepts no other limit below 640, the length under which it skips the
    check, so that length plays no part here.) *)
Record runtime : Type := {
  recursion_limit : nat;
  int_max_str_digits : nat
}.

(** CPython's defaults, with the whole recursion limit left to the decoder. *)
Definition cpython_default : runtime :=
  {| recursion_limit := 1000; int_max_str_digits := 4300 |}.

(** [str(z)] for an [int], which is also what [f"{z}"] gives: the decimal
    text, or [ValueError] when it has more digits (the sign is not counted)
    than the limit allows. *)
Definition str_of_int (rt : runtime) (z : Z) : result str :=
  if negb (Nat.eqb (int_max_str_digits rt) 0)
     && Nat.ltb (int_max_str_digits rt) (List.length (int_repr (Z.abs z)))
  then Raise ValueError
  else Return (int_repr z).

(** ** Dictionaries *)

Fixpoint str_eqb (a b : str) : bool :=
  match a, b with
  | [], [] => true
  | x :: a', y :: b' => N.eqb x y && str_eqb a' b'
  | _, _ => false
  end.

(** [d[k] = v] *)
Fixpoint dict_set (k : str) (v : pyobj) (d : list (str * pyobj))
  : list (str * pyobj) :=
  match d with
  | [] => [(k, v)]
  | (k', v') :: r =>
      if str_eqb k k' then (k, v) :: r else (k', v') :: dict_set k v r
  end.

(** [dict(pairs)] *)
Definition dict_of_pairs (pairs : list (str * pyobj)) : list (str * pyobj) :=
  fold_left (fun d kv => dict_set (fst kv) (snd kv) d) pairs [].

(** [d.get(k)] *)
Fixpoint dict_get (d : list (str * pyobj)) (k : str) : option pyobj :=
  match d with
  | [] => None
  | (k', v) :: r => if str_eqb k k' then Some v else dict_get r k
  end.

(** ** [json.loads]

    The decoder of Python's standard library, which [analyze] calls on the
    extracted span.  It follows [json/decoder.py] and [json/scanner.py]
    ([loads], [JSONDecoder.decode], [raw_decode], [scan_once], [JSONObject],
    [JSONArray], [scanstring] with [strict=True], [NUMBER_RE]); digits and
    hexadecimal digits are the ASCII ones, as in the accelerated scanner that
    CPython uses by default.  Positions are kept as the text still to read. *)

Module Json.

Local Open Scope char_scope.
Local Open Scope py_scope.
Local Notation "c == a" := (N.eqb c (code a)) (at level 70, no associativity).

(** [WHITESPACE_STR] *)
Definition is_ws (c : char) : bool :=
  (c == " ") || (c =? 9)%N || (c =? 10)%N || (c =? 13)%N.

(** [WHITESPACE.match(s, end).end()] *)
Fixpoint skip_ws (s : str) : str :=
  match s with
  | [] => []
  | c :: r => if is_ws c then skip_ws r else s
  end.

(** [s[idx:idx + len(p)] == p], answering what follows the match. *)
Fixpoint strip_prefix (p s : str) : option str :=
  match p, s with
  | [], _ => Some s
  | x :: p', y :: s' => if N.eqb x y then strip_prefix p' s' else None
  | _ :: _, [] => None
  end.

(** *** Strings *)

Definition hex_digit (c : char) : option N :=
  if ((48 <=? c) && (c <=? 57))%N then Some (c - 48)%N
  else if ((97 <=? c) && (c <=? 102))%N then Some (c - 87)%N
  else if ((65 <=? c) && (c <=? 70))%N then Some (c - 55)%N
  else None.

(** [_decode_uXXXX] on the four characters after [\u]. *)
Definition decode_uXXXX (h1 h2 h3 h4 : char) : option N :=
  match hex_digit h1, hex_digit h2, hex_digit h3, hex_digit h4 with
  | Some a, Some b, Some c, Some d => Some (((a * 16 + b) * 16 + c) * 16 + d)%N
  | _, _, _, _ => None
  end.

(** [BACKSLASH] *)
Definition backslash (esc : char) : option char :=
  if (esc =? DQUOTE)%N then Some DQUOTE
  else if esc == "\" then Some (code "\")
  else if esc == "/" then Some (code "/")
  else if esc == "b" then Some 8%N
  else if esc == "f" then Some 12%N
  else if esc == "n" then Some 10%N
  else if esc == "r" then Some 13%N
  else if esc == "t" then Some 9%N
  else None.

Definition is_high_surrogate (u : N) : bool := ((55296 <=? u) && (u <=? 56319))%N.
Definition is_low_surrogate (u : N) : bool := ((56320 <=? u) && (u <=? 57343))%N.

(** [0x10000 + (((uni - 0xd800) << 10) | (uni2 - 0xdc00))] *)
Definition join_surrogates (uni uni2 : N) : N :=
  (65536 + N.lor (N.shiftl (uni - 55296) 10) (uni2 - 56320))%N.

(** [scanstring(s, end, strict=True)], entered after the opening quote;
    [chunks] holds the decoded characters so far, last one first. *)
Fixpoint scanstring (s : str) (chunks : str) : result (str * str) :=
  match s with
  | [] => Raise JSONDecodeError            (* Unterminated string *)
  | c :: rest =>
      if (c =? DQUOTE)%N then Return (rev chunks, rest)
      else if c == "\" then
        match rest with
        | [] => Raise JSONDecodeError      (* Unterminated string *)
        | esc :: rest1 =>
            if esc == "u" then
              match rest1 with
              | h1 :: h2 :: h3 :: h4 :: rest2 =>
                  match decode_uXXXX h1 h2 h3 h4 with
                  | None => Raise JSONDecodeError   (* Invalid \uXXXX escape *)
                  | Some uni =>
                      if is_high_surrogate uni then
                        match rest2 with
                        | b :: u :: rest3 =>
                            if (b == "\") && (u == "u") then
                              match rest3 with
                              | g1 :: g2 :: g3 :: g4 :: rest4 =>
                                  match decode_uXXXX g1 g2 g3 g4 with
                                  | None => Raise JSONDecodeError
                                  | Some uni2 =>
                                      if is_low_surrogate uni2
                                      then scanstring rest4
                                             (join_surrogates uni uni2 :: chunks)
                                      else scanstring rest2 (uni :: chunks)
                                  end
                              | _ => Raise JSONDecodeError
                              end
                            else scanstring rest2 (uni :: chunks)
                        | _ => scanstring rest2 (uni :: chunks)
                        end
                      else scanstring rest2 (uni :: chunks)
                  end
              | _ => Raise JSONDecodeError          (* Invalid \uXXXX escape *)
              end
            else
              match backslash esc with
              | Some ch => scanstring rest1 (ch :: chunks)
              | None => Raise JSONDecodeError       (* Invalid \escape *)
              end
        end
      else if (c <? 32)%N then Raise JSONDecodeError  (* Invalid control character *)
      else scanstring rest (c :: chunks)
  end.

(** *** Numbers *)

Definition is_digit (c : char) : bool := ((48 <=? c) && (c <=? 57))%N.

(** The longest run of digits at the front, and what follows it. *)
Fixpoint span_digits (s : str) : str * str :=
  match s with
  | [] => ([], [])
  | c :: r =>
      if is_digit c then let (ds, r') := span_digits r in (c :: ds, r')
      else ([], s)
  end.

(** The groups of a [NUMBER_RE] match and the text after it: an optional
    minus sign and either a lone 0 or a digit 1-9 followed by digits; an
    optional dot with at least one digit; an optional exponent (e or E, an
    optional sign, at least one digit). *)
Record number_match : Type := {
  nm_negative : bool;
  nm_digits : str;
  nm_frac : str;
  nm_exp : str;
  nm_rest : str
}.

Definition match_frac (s : str) : str * str :=
  match s with
  | c :: r =>
      if c == "." then
        let (ds, r') := span_digits r in
        match ds with [] => ([], s) | _ => (c :: ds, r') end
      else ([], s)
  | [] => ([], s)
  end.

Definition match_exp (s : str) : str * str :=
  match s with
  | c :: r =>
      if (c == "e") || (c == "E") then
        let (sign, r1) :=
          match r with
          | sg :: r1 => if (sg == "-") || (sg == "+") then ([sg], r1) else ([], r)
          | [] => ([], r)
          end in
        let (ds, r2) := span_digits r1 in
        match ds with [] => ([], s) | _ => (c :: sign ++ ds, r2) end
      else ([], s)
  | [] => ([], s)
  end.

Definition match_integer (s : str) : option (str * str) :=
  match s with
  | c :: r =>
      if c == "0" then Some ([c], r)
      else if is_digit c then let (ds, r') := span_digits r in Some (c :: ds, r')
      else None
  | [] => None
  end.

(** [NUMBER_RE.match(string, idx)] *)
Definition match_number (s : str) : option number_match :=
  let (neg, s1) :=
    match s with
    | c :: r => if c == "-" then (true, r) else (false, s)
    | [] => (false, s)
    end in
  match match_integer s1 with
  | None => None
  | Some (ds, s2) =>
      let (frac, s3) := match_frac s2 in
      let (exp, s4) := match_exp s3 in
      Some {| nm_negative := neg; nm_digits := ds; nm_frac := frac;
              nm_exp := exp; nm_rest := s4 |}
  end.

Definition digits_value (ds : str) : Z :=
  fold_left (fun acc d => (10 * acc + Z.of_N (d - 48))%Z) ds 0%Z.

(** [int(integer)]: more digits than [int_max_str_digits] allows (when it is
    not 0) is a [ValueError], and not a [JSONDecodeError]. *)
Definition parse_int (rt : runtime) (negative : bool) (ds : str) : result pyobj :=
  if negb (Nat.eqb (int_max_str_digits rt) 0)
     && Nat.ltb (int_max_str_digits rt) (List.length ds)
  then Raise ValueError
  else Return (PyInt (if negative then - digits_value ds else digits_value ds)%Z).

Definition sign_text (negative : bool) : str :=
  if negative then [code "-"] else [].

(** *** Containers and the scanner *)

(** The [while True] loop of [JSONArray]; [values] are the items read so
    far and [fuel] bounds the iterations still allowed. *)
Fixpoint array_loop (scan_once : str -> result (pyobj * str)) (fuel : nat)
    (values : list pyobj) (s : str) : result (pyobj * str) :=
  match fuel with
  | O => Hang
  | S fuel' =>
      '(value, s1) <- try_except (scan_once s) StopIteration
                        (Raise JSONDecodeError) ;;       (* Expecting value *)
      let values' := values ++ [value] in
      match skip_ws s1 with
      | c :: r =>
          if c == "]" then Return (PyList values', r)
          else if c == "," then array_loop scan_once fuel' values' (skip_ws r)
          else Raise JSONDecodeError                     (* Expecting ',' *)
      | [] => Raise JSONDecodeError
      end
  end.

(** [JSONArray((s, end), scan_once)], entered after the opening bracket. *)
Definition JSONArray (scan_once : str -> result (pyobj * str)) (s : str)
  : result (pyobj * str) :=
  let s1 := skip_ws s in
  match s1 with
  | c :: r =>
      if c == "]" then Return (PyList [], r)
      else array_loop scan_once (S (List.length s1)) [] s1
  | [] => array_loop scan_once (S (List.length s1)) [] s1
  end.

(** The [while True] loop of [JSONObject], entered after the quote that
    opens a key. *)
Fixpoint object_loop (scan_once : str -> result (pyobj * str)) (fuel : nat)
    (pairs : list (str * pyobj)) (s : str) : result (pyobj * str) :=
  match fuel with
  | O => Hang
  | S fuel' =>
      '(key, s1) <- scanstring s [] ;;
      match skip_ws s1 with
      | c :: s2 =>
          if c == ":" then
            '(value, s3) <- try_except (scan_once (skip_ws s2)) StopIteration
                              (Raise JSONDecodeError) ;;  (* Expecting value *)
            let pairs' := pairs ++ [(key, value)] in
            match skip_ws s3 with
            | d :: s4 =>
                if d == "}" then Return (PyDict (dict_of_pairs pairs'), s4)
                else if d == "," then
                  match skip_ws s4 with
                  | q :: s5 =>
                      if (q =? DQUOTE)%N
                      then object_loop scan_once fuel' pairs' s5
                      else Raise JSONDecodeError  (* Expecting property name *)
                  | [] => Raise JSONDecodeError
                  end
                else Raise JSONDecodeError        (* Expecting ',' delimiter *)
            | [] => Raise JSONDecodeError
            end
          else Raise JSONDecodeError              (* Expecting ':' delimiter *)
      | [] => Raise JSONDecodeError
      end
  end.

(** [JSONObject((s, end), strict, scan_once, None, None)], entered after the
    opening brace. *)
Definition JSONObject (scan_once : str -> result (pyobj * str)) (s : str)
  : result (pyobj * str) :=
  match skip_ws s with
  | c :: r =>
      if c == "}" then Return (PyDict [], r)
      else if (c =? DQUOTE)%N then object_loop scan_once (S (List.length r)) [] r
      else Raise JSONDecodeError                  (* Expecting property name *)
  | [] => Raise JSONDecodeError
  end.

(** The number and constant cases of [_scan_once]. *)
Definition scan_number (rt : runtime) (s : str) : result (pyobj * str) :=
  match match_number s with
  | Some m =>
      match nm_frac m, nm_exp m with
      | [], [] =>
          res <- parse_int rt (nm_negative m) (nm_digits m) ;;
          Return (res, nm_rest m)
      | frac, exp =>
          Return (PyFloat (sign_text (nm_negative m) ++ nm_digits m ++ frac ++ exp),
                  nm_rest m)
      end
  | None =>
      match strip_prefix (lit "NaN") s with
      | Some rest => Return (PyFloat (lit "NaN"), rest)
      | None =>
      match strip_prefix (lit "Infinity") s with
      | Some rest => Return (PyFloat (lit "Infinity"), rest)
      | None =>
      match strip_prefix (lit "-Infinity") s with
      | Some rest => Return (PyFloat (lit "-Infinity"), rest)
      | None => Raise StopIteration
      end end end
  end.

(** [scan_once(string, idx)].  Entering an object or an array takes one
    level of the recursion budget [depth]; with none left the interpreter
    raises [RecursionError]. *)
Fixpoint scan_once (rt : runtime) (depth : nat) (s : str) : result (pyobj * str) :=
  match s with
  | [] => Raise StopIteration
  | nextchar :: r =>
      if (nextchar =? DQUOTE)%N then
        '(text, rest) <- scanstring r [] ;; Return (PyStr text, rest)
      else if nextchar == "{" then
        match depth with
        | O => Raise RecursionError
        | S depth' => JSONObject (scan_once rt depth') r
        end
      else if nextchar == "[" then
        match depth with
        | O => Raise RecursionError
        | S depth' => JSONArray (scan_once rt depth') r
        end
      else
        match strip_prefix (lit "null") s with
        | Some rest => Return (PyNone, rest)
        | None =>
        match strip_prefix (lit "true") s with
        | Some rest => Return (PyBool true, rest)
        | None =>
        match strip_prefix (lit "false") s with
        | Some rest => Return (PyBool false, rest)
        | None => scan_number rt s
        end end end
  end.

(** [JSONDecoder.raw_decode(s, idx)] *)
Definition raw_decode (rt : runtime) (s : str) : result (pyobj * str) :=
  try_except (scan_once rt (recursion_limit rt) s) StopIteration
    (Raise JSONDecodeError).                      (* Expecting value *)

(** [JSONDecoder.decode(s)] *)
Definition decode (rt : runtime) (s : str) : result pyobj :=
  '(obj, rest) <- raw_decode rt (skip_ws s) ;;
  match skip_ws rest with
  | [] => Return obj
  | _ :: _ => Raise JSONDecodeError               (* Extra data *)
  end.

(** U+FEFF *)
Definition BOM : char := 65279%N.

(** [json.loads(s)] for a [str] and default keyword arguments. *)
Definition loads (rt : runtime) (s : str) : result pyobj :=
  match s with
  | c :: _ => if (c =? BOM)%N then Raise JSONDecodeError else decode rt s
  | [] => decode rt s
  end.

End Json.

(** ** [AuditModel.analyze] *)

Definition NL : char := 10%N.
Definition LBRACE : char := 123%N.
Definition RBRACE : char := 125%N.
Definition LBRACKET : char := 91%N.

(** A metric value is text or a number; [f"{v}"] renders it with [str(v)],
    which raises [ValueError] for an [int] of too many digits.
    A [float] is carried as its [repr]. *)
Inductive metric_value : Type :=
| MText (s : str)
| MInt (z : Z)
| MFloat (repr : str).

Local Open Scope py_scope.

Definition format_value (rt : runtime) (v : metric_value) : result str :=
  match v with
  | MText s => Return s
  | MInt z => str_of_int rt z
  | MFloat r => Return r
  end.

(** [metrics.items()]: the entries of the dictionary, in insertion order. *)
Definition metrics_dict : Type := list (str * metric_value).

(** [f"- {k}: {v}"] *)
Definition metric_line (rt : runtime) (kv : str * metric_value) : result str :=
  v <- format_value rt (snd kv) ;;
  Return (lit "- " ++ fst kv ++ lit ": " ++ v).

(** [[f"- {k}: {v}" for k, v in metrics.items()]]: the lines in the order of
    the entries; the first value that cannot be rendered ends it. *)
Fixpoint metric_lines (rt : runtime) (items : metrics_dict) : result (list str) :=
  match items with
  | [] => Return []
  | kv :: rest =>
      line <- metric_line rt kv ;;
      lines <- metric_lines rt rest ;;
      Return (line :: lines)
  end.

(** [metrics_str = "\n".join([f"- {k}: {v}" for k, v in metrics.items()])] *)
Definition metrics_str (rt : runtime) (metrics : metrics_dict) : result str :=
  lines <- metric_lines rt metrics ;;
  Return (join [NL] lines).

Definition indent : str := lit "        ".

Definition prompt_head : str :=
  lit "You are an expert AI model auditor. precise and critical." ++ [NL]
  ++ indent ++ lit "Analyze the following model performance metrics and determine if there is a drift or issue." ++ [NL]
  ++ indent ++ [NL]
  ++ indent ++ lit "Metrics:" ++ [NL]
  ++ indent.

Definition prompt_tail : str :=
  [NL]
  ++ indent ++ [NL]
  ++ indent ++ lit "Provide your analysis in the following JSON format:" ++ [NL]
  ++ indent ++ lit "{" ++ [NL]
  ++ indent ++ lit "    'label': 'Status Label (e.g., No Drift, Major Drift, Critical Failure)'," ++ [NL]
  ++ indent ++ lit "    'explanation': 'Detailed explanation of why you assigned this label.'" ++ [NL]
  ++ indent ++ lit "}" ++ [NL]
  ++ indent ++ [NL]
  ++ indent ++ lit "Analysis:" ++ [NL]
  ++ indent.

(** The f-string [prompt] around the metrics block. *)
Definition prompt_of (block : str) : str :=
  prompt_head ++ block ++ prompt_tail.

(** Lines 55-69: the metrics block, then the prompt. *)
Definition prompt (rt : runtime) (metrics : metrics_dict) : result str :=
  block <- metrics_str rt metrics ;;
  Return (prompt_of block).

(** [generated_text.find('{')] *)
Definition start_idx (generated_text : str) : Z := find generated_text LBRACE.

(** [generated_text.rfind('}') + 1] *)
Definition end_idx (generated_text : str) : Z :=
  (rfind generated_text RBRACE + 1)%Z.

(** [start_idx != -1 and end_idx != -1] *)
Definition span_found (generated_text : str) : bool :=
  negb (start_idx generated_text =? -1)%Z && negb (end_idx generated_text =? -1)%Z.

(** [json_str = generated_text[start_idx:end_idx]] *)
Definition json_str (generated_text : str) : str :=
  slice generated_text (start_idx generated_text) (end_idx generated_text).

Definition two_fields (label explanation : str) : pyobj :=
  PyDict [(lit "label", PyStr label); (lit "explanation", PyStr explanation)].

(** The record of the [else] branch. *)
Definition analysis_generated (generated_text : str) : pyobj :=
  two_fields (lit "Analysis Generated") (strip generated_text).

(** The record of the [except json.JSONDecodeError] handler. *)
Definition parsing_error (generated_text : str) : pyobj :=
  two_fields (lit "Parsing Error")
    (lit "Could not parse model output as JSON. Raw output: " ++ generated_text).

(** Lines 93-110 of [analyze]: what becomes of the generated text. *)
Definition interpret (rt : runtime) (generated_text : str) : result pyobj :=
  try_except
    (if span_found generated_text
     then Json.loads rt (json_str generated_text)
     else Return (analysis_generated generated_text))
    JSONDecodeError
    (Return (parsing_error generated_text)).

Section Analyze.

(** The text-generation pipeline: from the prompt to
    [output[0]['generated_text']].  It samples, so two calls on one prompt
    are two pipelines here. *)
Variable pipe : str -> str.

(** The body of [analyze] once a model is there. *)
Definition analyze (rt : runtime) (metrics : metrics_dict) : result pyobj :=
  prompt_text <- prompt rt metrics ;;
  interpret rt (pipe prompt_text).

End Analyze.

(** ** The class [AuditModel]: construction, loading, and the whole of [analyze]

    The object is passed explicitly.  What the libraries do (whether MPS is
    there, the two [from_pretrained] calls, [Module.to], the generation
    pipeline, the text of an exception) is given by an [externals] record, one
    per call, so that two calls may meet different answers.  [print] is the
    list of lines a call writes. *)

Module AuditModel.

Section Class.

Variables Model Tokenizer Error : Type.

(** What a library call gives, and [load_model] with it: an answer, or an
    [Exception] that a library raised.  For [analyze], [Raised] is an
    exception of its loading step, and [Ok] comes with how the rest of the
    method ends, an [ending]. *)
Inductive outcome (A : Type) : Type :=
| Ok (a : A)
| Raised (e : Error).

Arguments Raised {A} e.

Definition MODEL_ID : str := lit "PhantomAjusshi/phi3-auditor-merged".

Record model_kwargs_t : Type := {
  dtype : str;
  trust_remote_code : bool;
  attn_implementation : str
}.

Definition model_kwargs : model_kwargs_t :=
  {| dtype := lit "auto"; trust_remote_code := true;
     attn_implementation := lit "eager" |}.

Record message : Type := { role : str; content : str }.

(** [temperature] is kept as the text of the literal. *)
Record generation_args_t : Type := {
  max_new_tokens : nat;
  return_full_text : bool;
  temperature : str;
  do_sample : bool;
  use_cache : bool
}.

Definition generation_args : generation_args_t :=
  {| max_new_tokens := 256; return_full_text := false;
     temperature := lit "0.1"; do_sample := true; use_cache := false |}.

Record externals : Type := {
  (** [torch.backends.mps.is_available()] *)
  mps_is_available : bool;
  (** [AutoTokenizer.from_pretrained(id, trust_remote_code=...)] *)
  tokenizer_from_pretrained : str -> bool -> outcome Tokenizer;
  (** [AutoModelForCausalLM.from_pretrained(id, **kwargs)] *)
  model_from_pretrained : str -> model_kwargs_t -> outcome Model;
  (** [model.to(device)]: the module is moved in place; the answer is the
      module as it is afterwards. *)
  model_to : Model -> str -> outcome Model;
  (** [pipeline("text-generation", model=, tokenizer=)(messages, **args)],
      up to [output[0]['generated_text']]. *)
  text_generation : option Model -> option Tokenizer -> list message
                    -> generation_args_t -> outcome str;
  (** [f"{e}"] *)
  format_error : Error -> str
}.

(** The attributes of the object. *)
Record instance : Type := {
  model : option Model;
  tokenizer : option Tokenizer;
  device : str
}.

(** What a method call leaves: the lines printed, the object, the answer. *)
Definition call (A : Type) : Type := (list str * instance * outcome A)%type.

Definition _get_device (ext : externals) : str :=
  if mps_is_available ext then lit "mps" else lit "cpu".

Definition __init__ (ext : externals) : list str * instance :=
  let dev := _get_device ext in
  ([lit "Using device: " ++ dev],
   {| model := None; tokenizer := None; device := dev |}).

(** Truth value of a [str]: false only for the empty one. *)
Definition truthy (s : str) : bool :=
  match s with [] => false | _ :: _ => true end.

Definition error_line (ext : externals) (e : Error) : str :=
  lit "Error loading model: " ++ format_error ext e.

Definition load_model (ext : externals) (self : instance) : call unit :=
  match model self with
  | Some _ => ([], self, Ok tt)
  | None =>
      let loading := lit "Loading model..." in
      match tokenizer_from_pretrained ext MODEL_ID true with
      | Raised e => ([loading; error_line ext e], self, Raised e)
      | Ok tok =>
          let self1 := {| model := model self; tokenizer := Some tok;
                          device := device self |} in
          match model_from_pretrained ext MODEL_ID model_kwargs with
          | Raised e => ([loading; error_line ext e], self1, Raised e)
          | Ok m =>
              let self2 := {| model := Some m; tokenizer := Some tok;
                              device := device self |} in
              if truthy (device self2) then
                match model_to ext m (device self2) with
                | Raised e => ([loading; error_line ext e], self2, Raised e)
                | Ok m' =>
                    ([loading; lit "Model loaded successfully."],
                     {| model := Some m'; tokenizer := Some tok;
                        device := device self |},
                     Ok tt)
                end
              else ([loading; lit "Model loaded successfully."], self2, Ok tt)
          end
      end
  end.

(** [messages = [{"role": "user", "content": prompt}]] *)
Definition messages (prompt : str) : list message :=
  [{| role := lit "user"; content := prompt |}].

(** How [analyze] ends once its loading step is over.  The method's own
    code ends: it returns a value, or it raises, which is [ValueError] from
    the rendering of the metrics, before anything is generated, or what
    [json.loads] raises and the handler does not catch.  Or the pipeline
    raises an [Exception] of the libraries. *)
Inductive ending : Type :=
| Ended (r : result pyobj)
| GenerationRaised (e : Error).

(** The whole method: load when there is no model, render the prompt,
    generate, interpret.  An exception of [load_model] leaves [analyze] as it
    is: [Raised e]. *)
Definition analyze (ext : externals) (rt : runtime) (self : instance)
    (metrics : metrics_dict) : call ending :=
  let '(printed, self', loaded) :=
    match model self with
    | None => load_model ext self
    | Some _ => ([], self, Ok tt)
    end in
  match loaded with
  | Raised e => (printed, self', Raised e)
  | Ok _ =>
      (printed, self',
       Ok match prompt rt metrics with
          | Return prompt =>
              match text_generation ext (model self') (tokenizer self')
                      (messages prompt) generation_args with
              | Ok generated_text => Ended (interpret rt generated_text)
              | Raised e => GenerationRaised e
              end
          | Raise e => Ended (Raise e)
          | Hang => Ended Hang
          end)
  end.

(** The objects a program can hold: the constructed one and what calls of
    the two methods make of it. *)
Inductive reachable : instance -> Prop :=
| reach_init (ext : externals) : reachable (snd (__init__ ext))
| reach_load_model (ext : externals) (self : instance) :
    reachable self -> reachable (snd (fst (load_model ext self)))
| reach_analyze (ext : externals) (rt : runtime) (self : instance)
    (metrics : metrics_dict) :
    reachable self -> reachable (snd (fst (analyze ext rt self metrics))).

End Class.

Arguments Ok {Error A} a.
Arguments Raised {Error A} e.
Arguments Ended {Error} r.
Arguments GenerationRaised {Error} e.

End AuditModel.

(** ** Measures and outcome descriptions used in the proofs *)

(** What every reachable object satisfies: the device is one of the two
    names, and a model is never held without its tokenizer. *)
Definition consistent {Model Tokenizer : Type}
    (self : AuditModel.instance Model Tokenizer) : Prop :=
  (AuditModel.device self = lit "mps" \/ AuditModel.device self = lit "cpu")
  /\ (AuditModel.model self <> None -> AuditModel.tokenizer self <> None).

(** How [analyze] ends on an object whose loading step is over: lines 55 to
    110, with the model and the tokenizer that the object holds. *)
Definition ending_of {Model Tokenizer Error : Type}
    (ext : AuditModel.externals Model Tokenizer Error) (rt : runtime)
    (self : AuditModel.instance Model Tokenizer) (metrics : metrics_dict)
  : AuditModel.ending Error :=
  match prompt rt metrics with
  | Return prompt_text =>
      match AuditModel.text_generation ext (AuditModel.model self)
              (AuditModel.tokenizer self)
              [{| AuditModel.role := lit "user";
                  AuditModel.content := prompt_text |}]
              AuditModel.generation_args with
      | AuditModel.Ok generated_text =>
          AuditModel.Ended (interpret rt generated_text)
      | AuditModel.Raised e => AuditModel.GenerationRaised e
      end
  | Raise e => AuditModel.Ended (Raise e)
  | Hang => AuditModel.Ended Hang
  end.

(** Three worlds for examples: everything works; the hub cannot be reached;
    the device refuses the model. *)
Definition working_externals : AuditModel.externals nat nat str :=
  {| AuditModel.mps_is_available := true;
     AuditModel.tokenizer_from_pretrained := fun _ _ => AuditModel.Ok 1;
     AuditModel.model_from_pretrained := fun _ _ => AuditModel.Ok 2;
     AuditModel.model_to := fun m _ => AuditModel.Ok (S m);
     AuditModel.text_generation :=
       fun _ _ _ _ => AuditModel.Ok (lit "{'label': 'No Drift'}");
     AuditModel.format_error := fun e => e |}.

Definition offline_externals : AuditModel.externals nat nat str :=
  {| AuditModel.mps_is_available := false;
     AuditModel.tokenizer_from_pretrained :=
       fun _ _ => AuditModel.Raised (lit "offline");
     AuditModel.model_from_pretrained := fun _ _ => AuditModel.Ok 2;
     AuditModel.model_to := fun m _ => AuditModel.Ok (S m);
     AuditModel.text_generation := fun _ _ _ _ => AuditModel.Ok (lit "{}");
     AuditModel.format_error := fun e => e |}.

Definition no_device_externals : AuditModel.externals nat nat str :=
  {| AuditModel.mps_is_available := true;
     AuditModel.tokenizer_from_pretrained := fun _ _ => AuditModel.Ok 1;
     AuditModel.model_from_pretrained := fun _ _ => AuditModel.Ok 2;
     AuditModel.model_to := fun _ _ => AuditModel.Raised (lit "out of memory");
     AuditModel.text_generation :=
       fun _ _ _ _ => AuditModel.Raised (lit "device mismatch");
     AuditModel.format_error := fun e => e |}.

(** Whether a value is a dictionary. *)
Definition is_dict (v : pyobj) : Prop := exists items, v = PyDict items.

Definition is_open (c : char) : bool := (c =? LBRACE)%N || (c =? LBRACKET)%N.

(** The number of [{] and [[] characters of a text. *)
Fixpoint opens (s : str) : nat :=
  match s with
  | [] => 0
  | c :: r => (if is_open c then 1 else 0) + opens r
  end.

(** [r] is what is left of [s] after reading some of it, seen through the two
    measures the proofs need. *)
Definition within (r s : str) : Prop :=
  List.length r <= List.length s /\ opens r <= opens s.

Definition shorter (r s : str) : Prop :=
  List.length r < List.length s /\ opens r <= opens s.

Definition digits_overflow (rt : runtime) (s : str) : Prop :=
  int_max_str_digits rt <> 0 /\ int_max_str_digits rt < List.length s.

Definition scan_spec (rt : runtime) (depth : nat) (s : str)
    (o : result (pyobj * str)) : Prop :=
  match o with
  | Return (_, r) => shorter r s
  | Raise StopIteration | Raise JSONDecodeError => True
  | Raise RecursionError => depth < opens s
  | Raise ValueError => digits_overflow rt s
  | Hang => False
  end.

Definition loop_spec (rt : runtime) (depth : nat) (s : str)
    (o : result (pyobj * str)) : Prop :=
  match o with
  | Return (_, r) => within r s
  | Raise StopIteration => False
  | Raise JSONDecodeError => True
  | Raise RecursionError => depth < opens s
  | Raise ValueError => digits_overflow rt s
  | Hang => False
  end.

(** [scanstring] returns with less input left, or raises [JSONDecodeError]. *)
Definition string_spec (s : str) (o : result (str * str)) : Prop :=
  match o with
  | Return (_, r) => shorter r s
  | Raise JSONDecodeError => True
  | Raise _ | Hang => False
  end.

(** What [json.loads] can do on a text. *)
Definition loads_spec (rt : runtime) (s : str) (o : result pyobj) : Prop :=
  match o with
  | Return _ => True
  | Raise StopIteration => False
  | Raise JSONDecodeError => True
  | Raise RecursionError => recursion_limit rt < opens s
  | Raise ValueError => digits_overflow rt s
  | Hang => False
  end.

(** How a call of the interpreter can end. *)
Definition interpret_spec (rt : runtime) (text : str) (o : result pyobj) : Prop :=
  match o with
  | Return _ => True
  | Raise RecursionError => recursion_limit rt < opens text
  | Raise ValueError => digits_overflow rt text
  | Raise StopIteration | Raise JSONDecodeError | Hang => False
  end.

(** The digit limit cannot be hit on a text this short. *)
Definition digits_ok (rt : runtime) (s : str) : Prop :=
  int_max_str_digits rt = 0 \/ List.length s <= int_max_str_digits rt.

(** A text on which the decoder can exhaust neither of the runtime's limits. *)
Definition within_limits (rt : runtime) (s : str) : Prop :=
  opens s <= recursion_limit rt /\ digits_ok rt s.

(** A value that is no text, or a text of fewer than [n] characters. *)
Definition short_text (n : nat) (v : pyobj) : Prop :=
  match v with
  | PyStr b => List.length b < n
  | _ => True
  end.

(** A decoded text is shorter than what it was read from. *)
Definition string_length_spec (s chunks : str) (o : result (str * str)) : Prop :=
  match o with
  | Return (t, _) => List.length t < List.length chunks + List.length s
  | _ => True
  end.

(** A run that ended on one of the interpreter's limits: [RecursionError],
    or the [ValueError] of the digit limit. *)
Definition hit_limit {A : Type} (o : result A) : Prop :=
  o = Raise RecursionError \/ o = Raise ValueError.

(** Two runs that ended alike, unless one of them ended on a limit. *)
Definition same_unless_limit {A : Type} (o1 o2 : result A) : Prop :=
  o1 = o2 \/ hit_limit o1 \/ hit_limit o2.

(** A metric value that [str] renders under the digit limit: any text, any
    float, and an [int] of no more digits than the limit. *)
Definition renders (rt : runtime) (v : metric_value) : Prop :=
  match v with
  | MInt z =>
      int_max_str_digits rt = 0
      \/ List.length (int_repr (Z.abs z)) <= int_max_str_digits rt
  | MText _ | MFloat _ => True
  end.

(** The text of a value that renders, and the line of its entry. *)
Definition value_text (v : metric_value) : str :=
  match v with
  | MText s => s
  | MInt z => int_repr z
  | MFloat r => r
  end.

Definition line_text (kv : str * metric_value) : str :=
  lit "- " ++ fst kv ++ lit ": " ++ value_text (snd kv).

(** A text is valid JSON when the decoder accepts it in some runtime, however
    generous its limits. *)
Definition valid_json (s : str) : Prop :=
  exists rt v, Json.loads rt s = Return v.

(** A text with [n] arrays opened inside an object. *)
Definition deep_text (n : nat) : str :=
  lit "{'a':" ++ repeat LBRACKET n ++ lit "}".

(** A JSON text for a string: the quote and the backslash escaped, control
    characters written as [\u00XX], everything else as it is. *)
Definition hex_char (d : N) : char := (if d <? 10 then 48 + d else 87 + d)%N.

Definition escape_char (c : char) : str :=
  if (c =? DQUOTE)%N then [92%N; DQUOTE]
  else if (c =? 92)%N then [92%N; 92%N]
  else if (c <? 32)%N
       then [92%N; 117%N; 48%N; 48%N; hex_char (c / 16); hex_char (c mod 16)]
       else [c].

Definition escape (s : str) : str := flat_map escape_char s.

(** The text of an object with the two keys, in the layout of the prompt. *)
Definition render_object (label explanation : str) : str :=
  lit "{'label': '" ++ escape label ++ lit "', 'explanation': '"
  ++ escape explanation ++ lit "'}".

(** A member of an object with a text value, and an object of such members,
    written as the prompt asks: [: ] after a key, [, ] between members. *)
Definition render_member (kv : str * str) : str :=
  DQUOTE :: escape (fst kv) ++ DQUOTE :: lit ": " ++ DQUOTE :: escape (snd kv)
  ++ [DQUOTE].

Definition render_flat_object (members : list (str * str)) : str :=
  LBRACE :: join (lit ", ") (map render_member members) ++ [RBRACE].

Definition member_value (kv : str * str) : str * pyobj :=
  (fst kv, PyStr (snd kv)).

(** The members [kv :: more] from after the quote that opens the first key,
    up to the closing brace, followed by [rest]. *)
Fixpoint members_after_quote (kv : str * str) (more : list (str * str))
    (rest : str) : str :=
  escape (fst kv) ++ DQUOTE :: lit ": " ++ DQUOTE :: escape (snd kv) ++ DQUOTE
  :: match more with
     | [] => RBRACE :: rest
     | next :: more' => lit ", " ++ DQUOTE :: members_after_quote next more' rest
     end.

(** The example object of the prompt and the two texts it holds. *)
Definition placeholder_label : str :=
  lit "Status Label (e.g., No Drift, Major Drift, Critical Failure)".

Definition placeholder_explanation : str :=
  lit "Detailed explanation of why you assigned this label.".

Definition prompt_example : str :=
  lit "{" ++ [NL]
  ++ indent ++ lit "    'label': 'Status Label (e.g., No Drift, Major Drift, Critical Failure)'," ++ [NL]
  ++ indent ++ lit "    'explanation': 'Detailed explanation of why you assigned this label.'" ++ [NL]
  ++ indent ++ lit "}".

(** The separator that [join] puts next to a block of items. *)
Definition sep_if_any {A : Type} (items : list A) : str :=
  match items with [] => [] | _ :: _ => [NL] end.

Ltac run := cbn [bind try_except exn_eqb scan_spec loop_spec] in *.

Ltac measures :=
  unfold shorter, within, digits_overflow, within_limits, digits_ok in *;
  cbn [List.length opens] in *; lia.

(** * Properties *)

(** ** Searching and slicing *)

Section StrFacts.

Local Open Scope Z_scope.

Lemma len_app (a b : str) : len (a ++ b) = len a + len b.
Proof. unfold len. rewrite length_app. lia. Qed.

Lemma len_nonneg (s : str) : 0 <= len s.
Proof. unfold len. lia. Qed.

(** [find] answers -1 exactly when the character does not occur, and
    otherwise the length of the longest prefix free of it. *)
Lemma find_from_spec (c : char) (s : str) (i : Z) :
  (~ In c s /\ find_from c s i = -1)
  \/ (exists pre post, s = pre ++ c :: post /\ ~ In c pre
                       /\ find_from c s i = i + len pre).
Proof.
  revert i. induction s as [|x r IH]; intro i; simpl.
  - left. split; [tauto | reflexivity].
  - destruct (N.eqb_spec x c) as [->|Hne].
    + right. exists [], r. repeat split; [tauto | unfold len; simpl; lia].
    + destruct (IH (i + 1)) as [[Hni Hf]|(pre & post & -> & Hni & Hf)].
      * left. split; [intros [?|?]; tauto | exact Hf].
      * right. exists (x :: pre), post. repeat split.
        -- intros [?|?]; tauto.
        -- rewrite Hf. unfold len. cbn [List.length]. lia.
Qed.

Lemma rfind_from_spec (c : char) (s : str) (i last : Z) :
  (~ In c s /\ rfind_from c s i last = last)
  \/ (exists pre post, s = pre ++ c :: post /\ ~ In c post
                       /\ rfind_from c s i last = i + len pre).
Proof.
  revert i last. induction s as [|x r IH]; intros i last; simpl.
  - left. split; [tauto | reflexivity].
  - destruct (IH (i + 1) (if N.eqb x c then i else last))
      as [[Hni Hf]|(pre & post & -> & Hni & Hf)].
    + destruct (N.eqb_spec x c) as [->|Hne].
      * right. exists [], r. repeat split; [exact Hni|].
        rewrite Hf. unfold len. simpl. lia.
      * left. split; [intros [?|?]; tauto | exact Hf].
    + right. exists (x :: pre), post. repeat split; [exact Hni|].
      rewrite Hf. unfold len. cbn [List.length]. lia.
Qed.

Lemma find_absent (c : char) (s : str) : ~ In c s -> find s c = -1.
Proof.
  intro Hni. unfold find.
  destruct (find_from_spec c s 0) as [[_ Hf]|(pre & post & -> & _ & _)];
    [exact Hf|].
  exfalso. apply Hni, in_or_app. right. left. reflexivity.
Qed.

Lemma find_present (c : char) (s : str) :
  In c s ->
  exists pre post, s = pre ++ c :: post /\ ~ In c pre /\ find s c = len pre.
Proof.
  intro Hin. unfold find.
  destruct (find_from_spec c s 0) as [[Hni _]|(pre & post & Hs & Hni & Hf)];
    [tauto|].
  exists pre, post. repeat split; [exact Hs | exact Hni | lia].
Qed.

Lemma find_minus_one_iff (c : char) (s : str) : find s c = -1 <-> ~ In c s.
Proof.
  split; [|apply find_absent].
  intros Hf Hin. destruct (find_present c s Hin) as (pre & _ & _ & _ & Hp).
  pose proof (len_nonneg pre). lia.
Qed.

(** [rfind] is never below -1. *)
Lemma rfind_lower_bound (c : char) (s : str) : -1 <= rfind s c.
Proof.
  unfold rfind.
  destruct (rfind_from_spec c s 0 (-1)) as [[_ ->]|(pre & _ & _ & _ & ->)];
    [lia | pose proof (len_nonneg pre); lia].
Qed.

Lemma adjust_index_in_range (n i : Z) : 0 <= i <= n -> adjust_index n i = i.
Proof.
  intros [H0 Hn]. unfold adjust_index.
  destruct (Z.ltb_spec i 0); lia.
Qed.

(** Slicing out the middle of a concatenation. *)
Lemma slice_middle (pre mid suf : str) :
  slice (pre ++ mid ++ suf) (len pre) (len pre + len mid) = mid.
Proof.
  unfold slice.
  pose proof (len_nonneg pre). pose proof (len_nonneg mid).
  pose proof (len_nonneg suf).
  rewrite !adjust_index_in_range by (rewrite !len_app; lia).
  replace (Z.to_nat (len pre)) with (List.length pre) by (unfold len; lia).
  replace (Z.to_nat (len pre + len mid - len pre)) with (List.length mid)
    by (unfold len; lia).
  rewrite skipn_app, skipn_all, Nat.sub_diag. simpl.
  rewrite firstn_app, firstn_all, Nat.sub_diag. simpl.
  apply app_nil_r.
Qed.

(** A slice whose end is not after its start is empty. *)
Lemma slice_empty (s : str) (a b : Z) : 0 <= a -> 0 <= b <= a -> slice s a b = [].
Proof.
  intros Ha Hb. unfold slice, adjust_index.
  destruct (Z.ltb_spec a 0); [lia|]. destruct (Z.ltb_spec b 0); [lia|].
  replace (Z.to_nat (Z.min b (len s) - Z.min a (len s))) with O by lia.
  reflexivity.
Qed.

(** A slice that starts where [find] found the character is empty or
    begins with that character. *)
Lemma slice_at_find (c : char) (s : str) (b : Z) :
  In c s -> slice s (find s c) b = [] \/ exists r, slice s (find s c) b = c :: r.
Proof.
  intro Hin. destruct (find_present c s Hin) as (pre & post & -> & _ & ->).
  unfold slice.
  rewrite (adjust_index_in_range (n := len (pre ++ c :: post)) (i := len pre)).
  2: { rewrite len_app. pose proof (len_nonneg pre).
       pose proof (len_nonneg (c :: post)). lia. }
  replace (Z.to_nat (len pre)) with (List.length pre) by (unfold len; lia).
  rewrite skipn_app, skipn_all, Nat.sub_diag. simpl.
  destruct (Z.to_nat _); simpl; [left; reflexivity | right; eauto].
Qed.

End StrFacts.

(** ** What the decoder can do

    Every call of the scanner consumes input, so the loops never run out of
    their iteration budget; [RecursionError] needs more opening brackets than
    the recursion budget, and [ValueError] a text longer than the digit
    limit. *)

Section DecoderFacts.

Import Json.

Lemma skip_ws_within (s : str) : within (skip_ws s) s.
Proof.
  induction s as [|c r IH]; simpl; [measures|].
  destruct (is_ws c); measures.
Qed.

Lemma strip_prefix_length (p s r : str) :
  strip_prefix p s = Some r ->
  List.length s = List.length p + List.length r /\ opens r <= opens s.
Proof.
  revert s. induction p as [|x p IH]; intros s H; simpl in H.
  - injection H as ->. simpl. lia.
  - destruct s as [|y s]; [discriminate|].
    destruct (N.eqb x y); [|discriminate].
    apply IH in H. cbn [List.length opens]. lia.
Qed.

Lemma span_digits_within (s : str) :
  within (snd (span_digits s)) s
  /\ List.length (fst (span_digits s)) <= List.length s.
Proof.
  induction s as [|c r IH]; simpl; [measures|].
  destruct (is_digit c); [|simpl; measures].
  destruct (span_digits r) as [ds r']. simpl in *. measures.
Qed.

Lemma scanstring_spec (s : str) :
  forall chunks, string_spec s (scanstring s chunks).
Proof.
  remember (List.length s) as n eqn:Hn.
  assert (Hle : List.length s <= n) by lia. clear Hn.
  revert s Hle. induction n as [|n IH]; intros s Hle chunks.
  - destruct s; [exact I | simpl in Hle; lia].
  - destruct s as [|c rest]; [exact I|].
    cbn [scanstring].
    repeat match goal with
           | |- context [match ?x with _ => _ end] => destruct x eqn:?
           | |- context [if ?b then _ else _] => destruct b eqn:?
           end;
      try exact I;
      try (cbn [string_spec]; measures);
      match goal with
      | |- string_spec _ (scanstring ?r ?a) =>
          let H := fresh "H" in
          assert (H : string_spec r (scanstring r a))
            by (apply IH; cbn [List.length] in *; lia);
          destruct (scanstring r a) as [[? ?]|[]|];
          cbn [string_spec] in *; try assumption; measures
      end.
Qed.

Lemma match_frac_within (s : str) : within (snd (match_frac s)) s.
Proof.
  unfold match_frac. destruct s as [|c r]; [simpl; measures|].
  destruct (N.eqb c (code ".")); [|simpl; measures].
  pose proof (span_digits_within r) as [Hw _].
  destruct (span_digits r) as [[|d ds] r']; simpl in *; measures.
Qed.

Lemma match_exp_within (s : str) : within (snd (match_exp s)) s.
Proof.
  unfold match_exp. destruct s as [|c r]; [simpl; measures|].
  destruct (_ || _); [|simpl; measures].
  destruct r as [|sg r1].
  - simpl. measures.
  - destruct (_ || _).
    + pose proof (span_digits_within r1) as [Hw _].
      destruct (span_digits r1) as [[|d ds] r2]; simpl in *; measures.
    + pose proof (span_digits_within (sg :: r1)) as [Hw _].
      destruct (span_digits (sg :: r1)) as [[|d ds] r2]; simpl in *; measures.
Qed.

Lemma match_integer_shorter (s ds r : str) :
  match_integer s = Some (ds, r) ->
  shorter r s /\ List.length ds <= List.length s.
Proof.
  unfold match_integer. destruct s as [|c s']; [discriminate|].
  destruct (N.eqb c (code "0")).
  - intros [= <- <-]. simpl. measures.
  - destruct (is_digit c); [|discriminate].
    pose proof (span_digits_within s') as [Hw Hl].
    destruct (span_digits s') as [ds' r']. intros [= <- <-].
    simpl in *. measures.
Qed.

Lemma match_number_shorter (s : str) (m : number_match) :
  match_number s = Some m ->
  shorter (nm_rest m) s /\ List.length (nm_digits m) <= List.length s.
Proof.
  unfold match_number.
  set (p := match s with
            | [] => (false, s)
            | c :: r => if N.eqb c (code "-") then (true, r) else (false, s)
            end).
  assert (Hp : within (snd p) s).
  { subst p. destruct s as [|c r]; [simpl; measures|].
    destruct (N.eqb c (code "-")); simpl; measures. }
  destruct p as [neg s1]. simpl in Hp.
  destruct (match_integer s1) as [[ds s2]|] eqn:Hi; [|discriminate].
  apply match_integer_shorter in Hi as [Hs Hl].
  pose proof (match_frac_within s2) as Hf.
  destruct (match_frac s2) as [frac s3].
  pose proof (match_exp_within s3) as He.
  destruct (match_exp s3) as [exp s4].
  intros [= <-]. simpl in *. measures.
Qed.

Lemma scan_number_spec (rt : runtime) (depth : nat) (s : str) :
  scan_spec rt depth s (scan_number rt s).
Proof.
  unfold scan_number.
  destruct (match_number s) as [m|] eqn:Hm.
  - apply match_number_shorter in Hm as [Hs Hl].
    destruct (nm_frac m), (nm_exp m); try exact Hs.
    unfold parse_int.
    destruct (negb _ && _) eqn:Hov; simpl; [|exact Hs].
    apply andb_prop in Hov as [H0 Hlt].
    apply negb_true_iff, Nat.eqb_neq in H0. apply Nat.ltb_lt in Hlt.
    measures.
  - repeat match goal with
           | |- context [strip_prefix ?p s] =>
               let H := fresh "H" in
               destruct (strip_prefix p s) eqn:H;
               [apply strip_prefix_length in H; simpl in *; measures|]
           end.
    exact I.
Qed.

Section Loops.

Variable rt : runtime.
Variable depth : nat.
Variable scan : str -> result (pyobj * str).
Hypothesis scan_ok : forall s, scan_spec rt depth s (scan s).

Lemma array_loop_spec (fuel : nat) :
  forall values s, List.length s < fuel ->
    loop_spec rt depth s (array_loop scan fuel values s).
Proof.
  induction fuel as [|fuel IH]; intros values s Hf; [lia|].
  cbn [array_loop].
  pose proof (scan_ok s) as Hs.
  destruct (scan s) as [[value s1]|[]|]; run; try assumption; try exact I.
  pose proof (skip_ws_within s1) as Hw.
  destruct (skip_ws s1) as [|c r]; [exact I|].
  destruct (N.eqb c (code "]")); [run; measures|].
  destruct (N.eqb c (code ",")); [|exact I].
  pose proof (skip_ws_within r) as Hw'.
  specialize (IH (values ++ [value]) (skip_ws r)).
  assert (Hlt : List.length (skip_ws r) < fuel) by measures.
  specialize (IH Hlt).
  destruct (array_loop scan fuel (values ++ [value]) (skip_ws r))
    as [[v r']|[]|]; run; try assumption; measures.
Qed.

Lemma JSONArray_spec (s : str) : loop_spec rt depth s (JSONArray scan s).
Proof.
  unfold JSONArray.
  pose proof (skip_ws_within s) as Hw.
  assert (H : loop_spec rt depth s
                (array_loop scan (S (List.length (skip_ws s))) [] (skip_ws s))).
  { pose proof (@array_loop_spec (S (List.length (skip_ws s))) [] (skip_ws s)
                  (Nat.lt_succ_diag_r _)) as H.
    destruct (array_loop _ _ _ _) as [[v r']|[]|]; run;
      try assumption; measures. }
  destruct (skip_ws s) as [|c r] eqn:E; [exact H|].
  destruct (N.eqb c (code "]")); [run; measures | exact H].
Qed.

Lemma object_loop_spec (fuel : nat) :
  forall pairs s, List.length s < fuel ->
    loop_spec rt depth s (object_loop scan fuel pairs s).
Proof.
  induction fuel as [|fuel IH]; intros pairs s Hf; [lia|].
  cbn [object_loop].
  pose proof (scanstring_spec s []) as Hk.
  destruct (scanstring s []) as [[key s1]|[]|];
    cbn [string_spec] in Hk; run; try contradiction; try exact I.
  pose proof (skip_ws_within s1) as Hw1.
  destruct (skip_ws s1) as [|c s2]; [exact I|].
  destruct (N.eqb c (code ":")); [|exact I].
  pose proof (skip_ws_within s2) as Hw2.
  pose proof (scan_ok (skip_ws s2)) as Hs.
  destruct (scan (skip_ws s2)) as [[value s3]|[]|]; run;
    try assumption; try exact I; try measures.
  pose proof (skip_ws_within s3) as Hw3.
  destruct (skip_ws s3) as [|d s4]; [exact I|].
  destruct (N.eqb d (code "}")); [run; measures|].
  destruct (N.eqb d (code ",")); [|exact I].
  pose proof (skip_ws_within s4) as Hw4.
  destruct (skip_ws s4) as [|q s5]; [exact I|].
  destruct (N.eqb q DQUOTE); [|exact I].
  specialize (IH (pairs ++ [(key, value)]) s5).
  assert (Hlt : List.length s5 < fuel) by measures.
  specialize (IH Hlt).
  destruct (object_loop scan fuel (pairs ++ [(key, value)]) s5)
    as [[v r']|[]|]; run; try assumption; measures.
Qed.

Lemma JSONObject_spec (s : str) : loop_spec rt depth s (JSONObject scan s).
Proof.
  unfold JSONObject.
  pose proof (skip_ws_within s) as Hw.
  destruct (skip_ws s) as [|c r]; [exact I|].
  destruct (N.eqb c (code "}")); [run; measures|].
  destruct (N.eqb c DQUOTE); [|exact I].
  pose proof (@object_loop_spec (S (List.length r)) [] r
                (Nat.lt_succ_diag_r _)) as H.
  destruct (object_loop _ _ _ _) as [[v r']|[]|]; run;
    try assumption; measures.
Qed.

End Loops.

Lemma open_brace_is_open (c : char) : N.eqb c (code "{") = true -> is_open c = true.
Proof. intro H. unfold is_open. change LBRACE with (code "{"). now rewrite H. Qed.

Lemma open_bracket_is_open (c : char) : N.eqb c (code "[") = true -> is_open c = true.
Proof.
  intro H. unfold is_open. change LBRACKET with (code "["). rewrite H.
  apply orb_true_r.
Qed.

(** The scanner consumes input whenever it returns and never hangs; it
    raises [RecursionError] only on a text with more opening brackets than
    its recursion budget. *)
Lemma scan_once_spec (rt : runtime) (depth : nat) :
  forall s, scan_spec rt depth s (scan_once rt depth s).
Proof.
  induction depth as [|depth IH]; intros [|c r]; cbn [scan_once]; try exact I.
  all: destruct (N.eqb c DQUOTE);
    [ pose proof (scanstring_spec r []) as Hk;
      destruct (scanstring r []) as [[text rest]|[]|];
      cbn [string_spec] in Hk; run; try contradiction; try exact I; measures |].
  all: destruct (N.eqb c (code "{")) eqn:Eo;
    [ apply open_brace_is_open in Eo | ].
  all: try (destruct (N.eqb c (code "[")) eqn:Ea;
    [ apply open_bracket_is_open in Ea | ]).
  all: try (run; cbn [opens]; rewrite ?Eo, ?Ea; lia).
  all: try (pose proof (@JSONObject_spec rt depth _ IH r) as H;
            destruct (JSONObject _ r) as [[v r']|[]|]; run;
            try assumption; try contradiction;
            cbn [opens]; rewrite ?Eo; measures).
  all: try (pose proof (@JSONArray_spec rt depth _ IH r) as H;
            destruct (JSONArray _ r) as [[v r']|[]|]; run;
            try assumption; try contradiction;
            cbn [opens]; rewrite ?Ea; measures).
  all: repeat match goal with
         | |- context [strip_prefix ?p ?t] =>
             let H := fresh "H" in
             destruct (strip_prefix p t) eqn:H;
             [apply strip_prefix_length in H; run; simpl in H; measures|]
         end;
       apply scan_number_spec.
Qed.

Lemma decode_spec (rt : runtime) (s : str) : loads_spec rt s (decode rt s).
Proof.
  unfold decode, raw_decode.
  pose proof (skip_ws_within s) as Hw.
  pose proof (scan_once_spec rt (recursion_limit rt) (skip_ws s)) as H.
  destruct (scan_once rt (recursion_limit rt) (skip_ws s)) as [[v r]|[]|];
    run; cbn [loads_spec]; try exact I; try contradiction; try measures.
  destruct (skip_ws r); exact I.
Qed.

Lemma loads_spec_holds (rt : runtime) (s : str) : loads_spec rt s (loads rt s).
Proof.
  unfold loads. destruct s as [|c r]; [apply decode_spec|].
  destruct (N.eqb c BOM); [exact I | apply decode_spec].
Qed.

(** The decoder terminates on every text. *)
Lemma json_loads_never_hangs (rt : runtime) (s : str) : loads rt s <> Hang.
Proof.
  pose proof (loads_spec_holds rt s) as H. intro E. rewrite E in H. exact H.
Qed.

Lemma json_loads_no_StopIteration (rt : runtime) (s : str) :
  loads rt s <> Raise StopIteration.
Proof.
  pose proof (loads_spec_holds rt s) as H. intro E. rewrite E in H. exact H.
Qed.

(** *** Objects come out as dictionaries *)

Lemma object_loop_dict (scan : str -> result (pyobj * str)) (fuel : nat) :
  forall pairs s v r,
    object_loop scan fuel pairs s = Return (v, r) -> is_dict v.
Proof.
  induction fuel as [|fuel IH]; intros pairs s v r H; [discriminate|].
  cbn [object_loop] in H.
  destruct (scanstring s []) as [[key s1]|e|]; run; try discriminate.
  destruct (skip_ws s1) as [|c s2]; [discriminate|].
  destruct (N.eqb c (code ":")); [|discriminate].
  destruct (scan (skip_ws s2)) as [[value s3]|[]|]; run; try discriminate.
  destruct (skip_ws s3) as [|d s4]; [discriminate|].
  destruct (N.eqb d (code "}")); [injection H as <- _; eexists; reflexivity|].
  destruct (N.eqb d (code ",")); [|discriminate].
  destruct (skip_ws s4) as [|q s5]; [discriminate|].
  destruct (N.eqb q DQUOTE); [|discriminate].
  eapply IH, H.
Qed.

Lemma JSONObject_dict (scan : str -> result (pyobj * str)) (s : str) v r :
  JSONObject scan s = Return (v, r) -> is_dict v.
Proof.
  unfold JSONObject. destruct (skip_ws s) as [|c s1]; [discriminate|].
  destruct (N.eqb c (code "}")); [intros [= <- _]; eexists; reflexivity|].
  destruct (N.eqb c DQUOTE); [|discriminate].
  apply object_loop_dict.
Qed.

(** A text that begins with [{] decodes to a dictionary or not at all. *)
Lemma loads_open_brace_dict (rt : runtime) (r : str) (v : pyobj) :
  loads rt (LBRACE :: r) = Return v -> is_dict v.
Proof.
  unfold loads, decode, raw_decode.
  change (N.eqb LBRACE BOM) with false. cbv iota.
  change (skip_ws (LBRACE :: r)) with (LBRACE :: r).
  destruct (recursion_limit rt) as [|depth]; [discriminate|].
  cbn [scan_once].
  change (N.eqb LBRACE DQUOTE) with false.
  change (N.eqb LBRACE (code "{")) with true. cbv iota.
  destruct (JSONObject (scan_once rt depth) r) as [[v' r']|[]|] eqn:Ho;
    run; try discriminate.
  apply JSONObject_dict in Ho.
  destruct (skip_ws r'); [|discriminate].
  intros [= <-]. exact Ho.
Qed.

Lemma loads_empty (rt : runtime) : loads rt [] = Raise JSONDecodeError.
Proof.
  unfold loads, decode, raw_decode. simpl skip_ws.
  destruct (recursion_limit rt); reflexivity.
Qed.

(** *** The result does not depend on limits that are not reached *)

Lemma scan_once_unfold (rt : runtime) (depth : nat) (s : str) :
  scan_once rt depth s
  = match s with
    | [] => Raise StopIteration
    | nextchar :: r =>
        if N.eqb nextchar DQUOTE then
          bind (scanstring r []) (fun x => let (text, rest) := x in
                                           Return (PyStr text, rest))
        else if N.eqb nextchar (code "{") then
          match depth with
          | O => Raise RecursionError
          | S depth' => JSONObject (scan_once rt depth') r
          end
        else if N.eqb nextchar (code "[") then
          match depth with
          | O => Raise RecursionError
          | S depth' => JSONArray (scan_once rt depth') r
          end
        else
          match strip_prefix (lit "null") s with
          | Some rest => Return (PyNone, rest)
          | None =>
          match strip_prefix (lit "true") s with
          | Some rest => Return (PyBool true, rest)
          | None =>
          match strip_prefix (lit "false") s with
          | Some rest => Return (PyBool false, rest)
          | None => scan_number rt s
          end end end
    end.
Proof. destruct depth; reflexivity. Qed.

Lemma parse_int_within_limit (rt : runtime) (negative : bool) (ds s : str) :
  digits_ok rt s -> List.length ds <= List.length s ->
  parse_int rt negative ds
  = Return (PyInt (if negative then - digits_value ds else digits_value ds)%Z).
Proof.
  intros Hok Hl. unfold parse_int.
  replace (negb (Nat.eqb (int_max_str_digits rt) 0)
           && Nat.ltb (int_max_str_digits rt) (List.length ds)) with false;
    [reflexivity|].
  symmetry. destruct Hok as [->|Hok]; [reflexivity|].
  apply andb_false_intro2, Nat.ltb_ge. lia.
Qed.

Lemma scan_number_agree (rt1 rt2 : runtime) (s : str) :
  digits_ok rt1 s -> digits_ok rt2 s -> scan_number rt1 s = scan_number rt2 s.
Proof.
  intros H1 H2. unfold scan_number.
  destruct (match_number s) as [m|] eqn:Hm; [|reflexivity].
  apply match_number_shorter in Hm as [_ Hl].
  destruct (nm_frac m), (nm_exp m); try reflexivity.
  now rewrite (parse_int_within_limit _ _ H1 Hl), (parse_int_within_limit _ _ H2 Hl).
Qed.

Section Agreement.

Variables scan1 scan2 : str -> result (pyobj * str).
Variable rt : runtime.
Variable depth : nat.
Hypothesis scan1_ok : forall s, scan_spec rt depth s (scan1 s).

Lemma array_loop_agree (fuel : nat) :
  forall values s,
    (forall s', within s' s -> scan1 s' = scan2 s') ->
    array_loop scan1 fuel values s = array_loop scan2 fuel values s.
Proof.
  induction fuel as [|fuel IH]; intros values s Hag; [reflexivity|].
  cbn [array_loop]. rewrite <- (Hag s) by measures.
  pose proof (scan1_ok s) as Hs.
  destruct (scan1 s) as [[value s1]|[]|]; run; try reflexivity.
  pose proof (skip_ws_within s1) as Hw.
  destruct (skip_ws s1) as [|c r]; [reflexivity|].
  destruct (N.eqb c (code "]")); [reflexivity|].
  destruct (N.eqb c (code ",")); [|reflexivity].
  pose proof (skip_ws_within r) as Hw'.
  apply IH. intros s' Hs'. apply Hag. measures.
Qed.

Lemma JSONArray_agree (s : str) :
  (forall s', within s' s -> scan1 s' = scan2 s') ->
  JSONArray scan1 s = JSONArray scan2 s.
Proof.
  intro Hag. unfold JSONArray.
  pose proof (skip_ws_within s) as Hw.
  rewrite (@array_loop_agree (S (List.length (skip_ws s))) [] (skip_ws s))
    by (intros s' Hs'; apply Hag; measures).
  reflexivity.
Qed.

Lemma object_loop_agree (fuel : nat) :
  forall pairs s,
    (forall s', within s' s -> scan1 s' = scan2 s') ->
    object_loop scan1 fuel pairs s = object_loop scan2 fuel pairs s.
Proof.
  induction fuel as [|fuel IH]; intros pairs s Hag; [reflexivity|].
  cbn [object_loop].
  pose proof (scanstring_spec s []) as Hk.
  destruct (scanstring s []) as [[key s1]|e|]; cbn [string_spec] in Hk; run;
    try reflexivity.
  pose proof (skip_ws_within s1) as Hw1.
  destruct (skip_ws s1) as [|c s2]; [reflexivity|].
  destruct (N.eqb c (code ":")); [|reflexivity].
  pose proof (skip_ws_within s2) as Hw2.
  rewrite <- (Hag (skip_ws s2)) by measures.
  pose proof (scan1_ok (skip_ws s2)) as Hs.
  destruct (scan1 (skip_ws s2)) as [[value s3]|[]|]; run; try reflexivity.
  pose proof (skip_ws_within s3) as Hw3.
  destruct (skip_ws s3) as [|d s4]; [reflexivity|].
  destruct (N.eqb d (code "}")); [reflexivity|].
  destruct (N.eqb d (code ",")); [|reflexivity].
  pose proof (skip_ws_within s4) as Hw4.
  destruct (skip_ws s4) as [|q s5]; [reflexivity|].
  destruct (N.eqb q DQUOTE); [|reflexivity].
  apply IH. intros s' Hs'. apply Hag. measures.
Qed.

Lemma JSONObject_agree (s : str) :
  (forall s', within s' s -> scan1 s' = scan2 s') ->
  JSONObject scan1 s = JSONObject scan2 s.
Proof.
  intro Hag. unfold JSONObject.
  pose proof (skip_ws_within s) as Hw.
  destruct (skip_ws s) as [|c r]; [reflexivity|].
  destruct (N.eqb c (code "}")); [reflexivity|].
  destruct (N.eqb c DQUOTE); [|reflexivity].
  apply object_loop_agree. intros s' Hs'. apply Hag. measures.
Qed.

End Agreement.

(** Two runtimes whose limits the text cannot reach scan it alike. *)
Lemma scan_once_agree (rt1 rt2 : runtime) (d1 : nat) :
  forall d2 s,
    opens s <= d1 -> opens s <= d2 -> digits_ok rt1 s -> digits_ok rt2 s ->
    scan_once rt1 d1 s = scan_once rt2 d2 s.
Proof.
  induction d1 as [|d1 IH]; intros d2 s Ho1 Ho2 Hd1 Hd2;
    rewrite (scan_once_unfold rt1), (scan_once_unfold rt2);
    destruct s as [|c r]; try reflexivity.
  all: destruct (N.eqb c DQUOTE); [reflexivity|].
  all: destruct (N.eqb c (code "{")) eqn:Eo;
    [ apply open_brace_is_open in Eo; cbn [opens] in Ho1, Ho2; rewrite Eo in *;
      destruct d2 as [|d2]; try lia | ].
  all: try (destruct (N.eqb c (code "[")) eqn:Ea;
    [ apply open_bracket_is_open in Ea; cbn [opens] in Ho1, Ho2; rewrite Ea in *;
      destruct d2 as [|d2]; try lia | ]).
  all: try (apply (@JSONObject_agree _ _ rt1 d1 (scan_once_spec rt1 d1));
            intros s' Hs'; apply IH; measures).
  all: try (apply (@JSONArray_agree _ _ rt1 d1 (scan_once_spec rt1 d1));
            intros s' Hs'; apply IH; measures).
  all: now rewrite (scan_number_agree Hd1 Hd2).
Qed.

Lemma loads_agree (rt1 rt2 : runtime) (s : str) :
  within_limits rt1 s -> within_limits rt2 s -> loads rt1 s = loads rt2 s.
Proof.
  intros [Ho1 Hd1] [Ho2 Hd2].
  assert (E : decode rt1 s = decode rt2 s).
  { unfold decode, raw_decode. pose proof (skip_ws_within s) as Hw.
    rewrite (@scan_once_agree rt1 rt2 (recursion_limit rt1) (recursion_limit rt2)
               (skip_ws s)) by measures.
    reflexivity. }
  unfold loads. now rewrite E.
Qed.

(** *** Two runs differ only where one of them ends on a limit *)

Lemma same_unless_limit_refl {A : Type} (o : result A) : same_unless_limit o o.
Proof. left. reflexivity. Qed.

Lemma same_unless_limit_bind {A B : Type} (o1 o2 : result A)
    (k1 k2 : A -> result B) :
  same_unless_limit o1 o2 ->
  (forall a, same_unless_limit (k1 a) (k2 a)) ->
  same_unless_limit (bind o1 k1) (bind o2 k2).
Proof.
  intros [E|[[E|E]|[E|E]]] Hk.
  - rewrite E. destruct o2 as [a| |]; cbn [bind];
      [apply Hk | left; reflexivity | left; reflexivity].
  - rewrite E. right. left. left. reflexivity.
  - rewrite E. right. left. right. reflexivity.
  - rewrite E. right. right. left. reflexivity.
  - rewrite E. right. right. right. reflexivity.
Qed.

Lemma same_unless_limit_try {A : Type} (o1 o2 : result A) (e : exn)
    (handler : result A) :
  e = StopIteration \/ e = JSONDecodeError ->
  same_unless_limit o1 o2 ->
  same_unless_limit (try_except o1 e handler) (try_except o2 e handler).
Proof.
  intros He [E|[[E|E]|[E|E]]].
  - rewrite E. left. reflexivity.
  - rewrite E. right. left. left. destruct He as [->| ->]; reflexivity.
  - rewrite E. right. left. right. destruct He as [->| ->]; reflexivity.
  - rewrite E. right. right. left. destruct He as [->| ->]; reflexivity.
  - rewrite E. right. right. right. destruct He as [->| ->]; reflexivity.
Qed.

Lemma scan_number_compatible (rt1 rt2 : runtime) (s : str) :
  same_unless_limit (scan_number rt1 s) (scan_number rt2 s).
Proof.
  unfold scan_number.
  destruct (match_number s) as [m|]; [|left; reflexivity].
  destruct (nm_frac m), (nm_exp m); try (left; reflexivity).
  apply same_unless_limit_bind; [|intro a; left; reflexivity].
  unfold parse_int.
  destruct (negb (Nat.eqb (int_max_str_digits rt1) 0)
            && Nat.ltb (int_max_str_digits rt1) (List.length (nm_digits m))).
  { right. left. right. reflexivity. }
  destruct (negb (Nat.eqb (int_max_str_digits rt2) 0)
            && Nat.ltb (int_max_str_digits rt2) (List.length (nm_digits m))).
  { right. right. right. reflexivity. }
  left. reflexivity.
Qed.

Section Compatible.

Variables scan1 scan2 : str -> result (pyobj * str).
Hypothesis scans : forall s, same_unless_limit (scan1 s) (scan2 s).

Lemma array_loop_compatible (fuel : nat) :
  forall values s,
    same_unless_limit (array_loop scan1 fuel values s)
      (array_loop scan2 fuel values s).
Proof.
  induction fuel as [|fuel IH]; intros values s; [left; reflexivity|].
  cbn [array_loop]. apply same_unless_limit_bind.
  { apply same_unless_limit_try; [left; reflexivity | apply scans]. }
  intros [value s1].
  destruct (skip_ws s1) as [|c r]; [left; reflexivity|].
  destruct (N.eqb c (code "]")); [left; reflexivity|].
  destruct (N.eqb c (code ",")); [apply IH | left; reflexivity].
Qed.

Lemma JSONArray_compatible (s : str) :
  same_unless_limit (JSONArray scan1 s) (JSONArray scan2 s).
Proof.
  unfold JSONArray. destruct (skip_ws s) as [|c r].
  - apply array_loop_compatible.
  - destruct (N.eqb c (code "]")); [left; reflexivity|].
    apply array_loop_compatible.
Qed.

Lemma object_loop_compatible (fuel : nat) :
  forall pairs s,
    same_unless_limit (object_loop scan1 fuel pairs s)
      (object_loop scan2 fuel pairs s).
Proof.
  induction fuel as [|fuel IH]; intros pairs s; [left; reflexivity|].
  cbn [object_loop]. apply same_unless_limit_bind; [left; reflexivity|].
  intros [key s1].
  destruct (skip_ws s1) as [|c s2]; [left; reflexivity|].
  destruct (N.eqb c (code ":")); [|left; reflexivity].
  apply same_unless_limit_bind.
  { apply same_unless_limit_try; [left; reflexivity | apply scans]. }
  intros [value s3].
  destruct (skip_ws s3) as [|d s4]; [left; reflexivity|].
  destruct (N.eqb d (code "}")); [left; reflexivity|].
  destruct (N.eqb d (code ",")); [|left; reflexivity].
  destruct (skip_ws s4) as [|q s5]; [left; reflexivity|].
  destruct (N.eqb q DQUOTE); [apply IH | left; reflexivity].
Qed.

Lemma JSONObject_compatible (s : str) :
  same_unless_limit (JSONObject scan1 s) (JSONObject scan2 s).
Proof.
  unfold JSONObject. destruct (skip_ws s) as [|c r]; [left; reflexivity|].
  destruct (N.eqb c (code "}")); [left; reflexivity|].
  destruct (N.eqb c DQUOTE); [apply object_loop_compatible | left; reflexivity].
Qed.

End Compatible.

(** Whatever the limits and the budgets, two scans of a text end alike or
    one of them ends on a limit. *)
Lemma scan_once_compatible (rt1 rt2 : runtime) (d1 : nat) :
  forall d2 s,
    same_unless_limit (scan_once rt1 d1 s) (scan_once rt2 d2 s).
Proof.
  induction d1 as [|d1 IH]; intros d2 s;
    rewrite (scan_once_unfold rt1), (scan_once_unfold rt2);
    destruct s as [|c r]; try (left; reflexivity).
  all: destruct (N.eqb c DQUOTE); [left; reflexivity|].
  all: destruct (N.eqb c (code "{")).
  all: try (right; left; left; reflexivity).
  all: try (destruct (N.eqb c (code "[")); [right; left; left; reflexivity|]).
  all: try (destruct d2 as [|d2]; [right; right; left; reflexivity|];
            apply JSONObject_compatible; intro s'; apply IH).
  all: try (destruct (N.eqb c (code "["));
            [ destruct d2 as [|d2]; [right; right; left; reflexivity|];
              apply JSONArray_compatible; intro s'; apply IH | ]).
  all: destruct (strip_prefix (lit "null") (c :: r)); [left; reflexivity|].
  all: destruct (strip_prefix (lit "true") (c :: r)); [left; reflexivity|].
  all: destruct (strip_prefix (lit "false") (c :: r)); [left; reflexivity|].
  all: apply scan_number_compatible.
Qed.

Lemma loads_compatible (rt1 rt2 : runtime) (s : str) :
  same_unless_limit (loads rt1 s) (loads rt2 s).
Proof.
  assert (E : same_unless_limit (decode rt1 s) (decode rt2 s)).
  { unfold decode, raw_decode. apply same_unless_limit_bind.
    - apply same_unless_limit_try; [left; reflexivity|].
      apply scan_once_compatible.
    - intros [obj rest]. left. reflexivity. }
  unfold loads. destruct s as [|c r]; [exact E|].
  destruct (N.eqb c BOM); [left; reflexivity | exact E].
Qed.

End DecoderFacts.

(** ** The extracted span *)

Section SpanFacts.

Local Open Scope Z_scope.

Lemma find_app_first (c : char) (pre post : str) :
  ~ In c pre -> find (pre ++ c :: post) c = len pre.
Proof.
  intro Hni. unfold find.
  assert (H : forall i, find_from c (pre ++ c :: post) i = i + len pre).
  { induction pre as [|x pre IH]; intro i; simpl.
    - rewrite N.eqb_refl. unfold len. simpl. lia.
    - destruct (N.eqb_spec x c) as [->|_]; [exfalso; apply Hni; now left|].
      rewrite IH by (intro; apply Hni; now right).
      unfold len. cbn [List.length]. lia. }
  rewrite H. lia.
Qed.

Lemma rfind_app_last (c : char) (pre post : str) :
  ~ In c post -> rfind (pre ++ c :: post) c = len pre.
Proof.
  intro Hni. unfold rfind.
  assert (H : forall i last,
             rfind_from c (pre ++ c :: post) i last = i + len pre).
  { induction pre as [|x pre IH]; intros i last; simpl.
    - rewrite N.eqb_refl.
      destruct (rfind_from_spec c post (i + 1) i)
        as [[_ ->]|(p & q & -> & _ & _)].
      + unfold len. simpl. lia.
      + exfalso. apply Hni, in_or_app. right. now left.
    - rewrite IH. unfold len. cbn [List.length]. lia. }
  rewrite H. lia.
Qed.

(** [end_idx] is never -1: the second half of the guard always holds. *)
Lemma end_idx_nonneg (text : str) : 0 <= end_idx text.
Proof. unfold end_idx. pose proof (rfind_lower_bound RBRACE text). lia. Qed.

Lemma span_found_iff (text : str) : span_found text = true <-> In LBRACE text.
Proof.
  unfold span_found. pose proof (end_idx_nonneg text) as He.
  destruct (Z.eqb_spec (end_idx text) (-1)) as [E|_]; [lia|].
  rewrite andb_true_r, negb_true_iff, Z.eqb_neq.
  unfold start_idx. rewrite find_minus_one_iff.
  destruct (in_dec N.eq_dec LBRACE text); tauto.
Qed.

Lemma span_found_false_iff (text : str) :
  span_found text = false <-> ~ In LBRACE text.
Proof.
  rewrite <- span_found_iff. destruct (span_found text); split; congruence.
Qed.

(** With no [}] after the first [{], the span is the empty text. *)
Lemma json_str_empty (text : str) :
  In LBRACE text -> rfind text RBRACE < find text LBRACE -> json_str text = [].
Proof.
  intros Hin Hlt. unfold json_str, start_idx, end_idx.
  pose proof (rfind_lower_bound RBRACE text).
  apply slice_empty; lia.
Qed.

(** The span of [pre ++ obj ++ suf] is [obj] when [obj] runs from a [{] to
    a [}], no [{] comes before it and no [}] after it. *)
Lemma json_str_framed (pre body suf : str) :
  ~ In LBRACE pre -> ~ In RBRACE suf ->
  json_str (pre ++ (LBRACE :: body ++ [RBRACE]) ++ suf)
  = LBRACE :: body ++ [RBRACE].
Proof.
  intros Hpre Hsuf. unfold json_str, start_idx, end_idx.
  set (obj := LBRACE :: body ++ [RBRACE]).
  replace (find (pre ++ obj ++ suf) LBRACE) with (len pre)
    by (symmetry; subst obj; simpl; apply find_app_first; exact Hpre).
  replace (rfind (pre ++ obj ++ suf) RBRACE + 1) with (len pre + len obj).
  - apply slice_middle.
  - replace (pre ++ obj ++ suf) with ((pre ++ LBRACE :: body) ++ RBRACE :: suf)
      by (subst obj; simpl; rewrite <- !app_assoc; reflexivity).
    rewrite rfind_app_last by exact Hsuf.
    subst obj. rewrite len_app. unfold len. cbn [List.length].
    rewrite length_app. cbn [List.length]. lia.
Qed.

End SpanFacts.

(** ** The response interpreter *)

Section Interpreter.

Local Open Scope Z_scope.

Lemma interpret_fallback (rt : runtime) (text : str) :
  span_found text = false -> interpret rt text = Return (analysis_generated text).
Proof. intro H. unfold interpret. rewrite H. reflexivity. Qed.

Lemma interpret_span (rt : runtime) (text : str) :
  span_found text = true ->
  interpret rt text
  = try_except (Json.loads rt (json_str text)) JSONDecodeError
      (Return (parsing_error text)).
Proof. intro H. unfold interpret. rewrite H. reflexivity. Qed.

(** C6. A text without any [{] gives the "Analysis Generated" record, whose
    explanation is the text with the surrounding whitespace stripped. *)
Theorem no_open_brace_gives_analysis_generated (rt : runtime) (text : str) :
  ~ In LBRACE text ->
  interpret rt text
  = Return (PyDict [(lit "label", PyStr (lit "Analysis Generated"));
                    (lit "explanation", PyStr (strip text))]).
Proof.
  intro H. apply interpret_fallback, span_found_false_iff, H.
Qed.

Lemma no_open_brace_gives_analysis_generated_witness :
  ~ In LBRACE (lit "  Looks fine.  ")
  /\ interpret cpython_default (lit "  Looks fine.  ")
     = Return (PyDict [(lit "label", PyStr (lit "Analysis Generated"));
                       (lit "explanation", PyStr (lit "Looks fine."))]).
Proof.
  assert (H : ~ In LBRACE (lit "  Looks fine.  ")).
  { vm_compute. intuition discriminate. }
  split; [exact H|].
  exact (no_open_brace_gives_analysis_generated cpython_default _ H).
Defined.

(** C1, at a generation cut off before the closing brace: the text has a
    [{] and no [}], and the result is the "Parsing Error" record, not the
    "Analysis Generated" one. *)
Theorem truncated_object_is_parsing_error :
  let text := lit "{'label': 'No Drift', 'explanation': 'Stab" in
  ~ In RBRACE text
  /\ interpret cpython_default text = Return (parsing_error text)
  /\ interpret cpython_default text <> Return (analysis_generated text).
Proof.
  intro text. split; [|split].
  - vm_compute. intuition discriminate.
  - vm_compute. reflexivity.
  - vm_compute. discriminate.
Qed.

(** C8. On the text [{}] the decoder's empty dictionary is returned as it
    is: it has neither a [label] nor an [explanation] key. *)
Theorem empty_object_returned_as_is (rt : runtime) :
  (1 <= recursion_limit rt)%nat ->
  exists d, interpret rt (lit "{}") = Return (PyDict d)
            /\ d = []
            /\ dict_get d (lit "label") = None
            /\ dict_get d (lit "explanation") = None.
Proof.
  intro H. exists []. repeat split.
  unfold interpret. change (span_found (lit "{}")) with true. cbv iota.
  change (json_str (lit "{}")) with [LBRACE; RBRACE].
  unfold Json.loads, Json.decode, Json.raw_decode.
  destruct (recursion_limit rt) as [|depth]; [lia | reflexivity].
Qed.

Lemma empty_object_returned_as_is_witness :
  exists d, interpret cpython_default (lit "{}") = Return (PyDict d)
            /\ d = []
            /\ dict_get d (lit "label") = None
            /\ dict_get d (lit "explanation") = None.
Proof.
  apply (empty_object_returned_as_is cpython_default).
  simpl. lia.
Defined.

(** C10. Whatever the interpreter returns is a dictionary: the two records
    are, and the span handed to the decoder is empty or begins with [{]. *)
Theorem returned_value_is_dict (rt : runtime) (text : str) (v : pyobj) :
  interpret rt text = Return v -> is_dict v.
Proof.
  unfold interpret. destruct (span_found text) eqn:Hs.
  - apply span_found_iff in Hs.
    destruct (slice_at_find LBRACE text (end_idx text) Hs) as [E|[r E]];
      fold (start_idx text) in E; fold (json_str text) in E; rewrite E.
    + rewrite loads_empty. intros [= <-]. eexists. reflexivity.
    + destruct (Json.loads rt (LBRACE :: r)) as [v'|[]|] eqn:Hl;
        cbn [try_except exn_eqb]; try discriminate.
      * intros [= <-]. exact (loads_open_brace_dict rt r Hl).
      * intros [= <-]. eexists. reflexivity.
  - intros [= <-]. eexists. reflexivity.
Qed.

Lemma returned_value_is_dict_witness :
  is_dict (PyDict [(lit "label", PyStr (lit "No Drift"));
                   (lit "explanation", PyStr (lit "Stable"))]).
Proof.
  apply (@returned_value_is_dict cpython_default
           (lit "Analysis: {'label': 'No Drift', 'explanation': 'Stable'}")).
  vm_compute. reflexivity.
Defined.

End Interpreter.

(** ** Well-formed objects inside a longer text *)

Section FramedObject.

Lemma decode_control_escape (c : char) :
  (c < 32)%N ->
  Json.decode_uXXXX 48%N 48%N (hex_char (c / 16)) (hex_char (c mod 16)) = Some c.
Proof.
  intro H.
  assert (Hin : In c (map N.of_nat (seq 0 32))).
  { rewrite <- (N2Nat.id c). apply in_map, in_seq. lia. }
  cbn in Hin.
  repeat (destruct Hin as [<-|Hin]; [reflexivity|]). contradiction.
Qed.

(** Reading back an escaped string gives the string. *)
Lemma scanstring_escape (s : str) :
  forall chunks rest,
    Json.scanstring (escape s ++ DQUOTE :: rest) chunks
    = Return (rev chunks ++ s, rest).
Proof.
  induction s as [|c s IH]; intros chunks rest.
  - simpl. rewrite app_nil_r. reflexivity.
  - change (escape (c :: s)) with (escape_char c ++ escape s).
    rewrite <- app_assoc.
    assert (Hnext : Json.scanstring (escape s ++ DQUOTE :: rest) (c :: chunks)
                    = Return (rev chunks ++ c :: s, rest)).
    { rewrite IH. simpl. rewrite <- app_assoc. reflexivity. }
    unfold escape_char.
    destruct (N.eqb_spec c DQUOTE) as [->|Hq]; [exact Hnext|].
    destruct (N.eqb_spec c 92%N) as [->|Hb]; [exact Hnext|].
    destruct (N.ltb_spec c 32%N) as [Hlt|Hge].
    + cbn [app Json.scanstring].
      change (N.eqb 92%N DQUOTE) with false.
      change (N.eqb 92%N (code "\")) with true.
      change (N.eqb 117%N (code "u")) with true. cbv iota.
      rewrite (decode_control_escape Hlt).
      replace (Json.is_high_surrogate c) with false; [exact Hnext|].
      symmetry. unfold Json.is_high_surrogate.
      apply andb_false_intro1, N.leb_gt. lia.
    + cbn [app Json.scanstring].
      replace (N.eqb c DQUOTE) with false by (symmetry; now apply N.eqb_neq).
      replace (N.eqb c (code "\")) with false by (symmetry; now apply N.eqb_neq).
      replace (N.ltb c 32%N) with false by (symmetry; now apply N.ltb_ge).
      exact Hnext.
Qed.

Lemma scan_once_escaped_string (rt : runtime) (depth : nat) (s rest : str) :
  Json.scan_once rt depth (DQUOTE :: escape s ++ DQUOTE :: rest)
  = Return (PyStr s, rest).
Proof.
  destruct depth; cbn [Json.scan_once];
    change (N.eqb DQUOTE DQUOTE) with true; cbv iota;
    rewrite scanstring_escape; reflexivity.
Qed.

(** One turn of the object loop that ends at the closing brace. *)
Lemma object_loop_last (scan : str -> result (pyobj * str)) (fuel : nat)
    (pairs : list (str * pyobj)) (s key s1 s2 s3 s4 : str) (value : pyobj) :
  Json.scanstring s [] = Return (key, s1) ->
  Json.skip_ws s1 = code ":" :: s2 ->
  scan (Json.skip_ws s2) = Return (value, s3) ->
  Json.skip_ws s3 = RBRACE :: s4 ->
  Json.object_loop scan (S fuel) pairs s
  = Return (PyDict (dict_of_pairs (pairs ++ [(key, value)])), s4).
Proof.
  intros Hk Hc Hv Hb. cbn [Json.object_loop]. rewrite Hk. cbn [bind].
  rewrite Hc, N.eqb_refl, Hv. cbn [bind try_except]. rewrite Hb. reflexivity.
Qed.

(** One turn of the object loop that goes on to another key. *)
Lemma object_loop_more (scan : str -> result (pyobj * str)) (fuel : nat)
    (pairs : list (str * pyobj)) (s key s1 s2 s3 s4 s5 : str) (value : pyobj) :
  Json.scanstring s [] = Return (key, s1) ->
  Json.skip_ws s1 = code ":" :: s2 ->
  scan (Json.skip_ws s2) = Return (value, s3) ->
  Json.skip_ws s3 = code "," :: s4 ->
  Json.skip_ws s4 = DQUOTE :: s5 ->
  Json.object_loop scan (S fuel) pairs s
  = Json.object_loop scan fuel (pairs ++ [(key, value)]) s5.
Proof.
  intros Hk Hc Hv Hb Hq. cbn [Json.object_loop]. rewrite Hk. cbn [bind].
  rewrite Hc, N.eqb_refl, Hv. cbn [bind try_except]. rewrite Hb.
  change (N.eqb (code ",") (code "}")) with false. rewrite N.eqb_refl.
  cbv iota. rewrite Hq, N.eqb_refl. reflexivity.
Qed.

(** The decoder reads a rendered object back as the two fields. *)
Lemma loads_render_object (rt : runtime) (label explanation : str) :
  1 <= recursion_limit rt ->
  Json.loads rt (render_object label explanation)
  = Return (two_fields label explanation).
Proof.
  intro Hlim. unfold Json.loads, Json.decode, Json.raw_decode.
  destruct (recursion_limit rt) as [|depth]; [lia|].
  set (s_expl := escape explanation ++ DQUOTE :: [RBRACE]).
  set (s_key2 := lit "explanation': " ++ DQUOTE :: s_expl).
  set (s_label := escape label ++ DQUOTE :: lit ", " ++ DQUOTE :: s_key2).
  set (s_key1 := lit "label': " ++ DQUOTE :: s_label).
  change (render_object label explanation) with (LBRACE :: DQUOTE :: s_key1).
  change (N.eqb LBRACE Json.BOM) with false. cbv iota.
  change (Json.skip_ws (LBRACE :: DQUOTE :: s_key1)) with (LBRACE :: DQUOTE :: s_key1).
  change (Json.scan_once rt (S depth) (LBRACE :: DQUOTE :: s_key1))
    with (Json.object_loop (Json.scan_once rt depth) (S (List.length s_key1)) [] s_key1).
  rewrite object_loop_more
    with (key := lit "label") (s1 := lit ": " ++ DQUOTE :: s_label)
         (s2 := lit " " ++ DQUOTE :: s_label) (value := PyStr label)
         (s3 := lit ", " ++ DQUOTE :: s_key2) (s4 := lit " " ++ DQUOTE :: s_key2)
         (s5 := s_key2);
    try reflexivity.
  2: { apply scan_once_escaped_string. }
  change (List.length s_key1) with (S (List.length (tl s_key1))).
  rewrite object_loop_last
    with (key := lit "explanation") (s1 := lit ": " ++ DQUOTE :: s_expl)
         (s2 := lit " " ++ DQUOTE :: s_expl) (value := PyStr explanation)
         (s3 := [RBRACE]) (s4 := []);
    try reflexivity.
  apply scan_once_escaped_string.
Qed.

(** A rendered object, framed by text without braces, is returned as the two
    fields, whatever the label and the explanation are. *)
Lemma rendered_object_returned (rt : runtime) (pre suf label explanation : str) :
  1 <= recursion_limit rt ->
  ~ In LBRACE pre -> ~ In RBRACE suf ->
  interpret rt (pre ++ render_object label explanation ++ suf)
  = Return (two_fields label explanation).
Proof.
  intros Hlim Hpre Hsuf.
  assert (E : render_object label explanation
              = LBRACE :: (lit "'label': '" ++ escape label
                           ++ lit "', 'explanation': '" ++ escape explanation
                           ++ [DQUOTE]) ++ [RBRACE]).
  { unfold render_object. simpl. rewrite <- !app_assoc. simpl.
    rewrite <- !app_assoc. reflexivity. }
  rewrite interpret_span.
  - rewrite E, json_str_framed by assumption. rewrite <- E.
    rewrite loads_render_object by exact Hlim. reflexivity.
  - apply span_found_iff, in_or_app. right. left. reflexivity.
Qed.

(** C2, as stated, fails: a well-formed object with both keys that comes
    after another brace pair is not what the interpreter reads. *)
Lemma containing_an_object_is_not_enough :
  ~ (forall (rt : runtime) (pre obj suf label explanation : str),
       Json.loads rt obj = Return (two_fields label explanation) ->
       interpret rt (pre ++ obj ++ suf) = Return (two_fields label explanation)).
Proof.
  intro H.
  specialize (H cpython_default (lit "Note {draft}: ")
                (lit "{'label': 'No Drift', 'explanation': 'Stable'}") []
                (lit "No Drift") (lit "Stable")).
  vm_compute in H. specialize (H eq_refl). discriminate H.
Qed.

(** C2, amended. When the object runs from the first [{] of the text to its
    last [}] (nothing before it has a [{], nothing after it a [}]) and the
    decoder accepts it, the interpreter returns the decoded dictionary
    itself, so its [label] and [explanation] are the object's. *)
Theorem framed_object_returned_unchanged (rt : runtime)
    (pre body suf : str) (d : list (str * pyobj)) (label explanation : pyobj) :
  ~ In LBRACE pre -> ~ In RBRACE suf ->
  Json.loads rt (LBRACE :: body ++ [RBRACE]) = Return (PyDict d) ->
  dict_get d (lit "label") = Some label ->
  dict_get d (lit "explanation") = Some explanation ->
  exists d',
    interpret rt (pre ++ (LBRACE :: body ++ [RBRACE]) ++ suf) = Return (PyDict d')
    /\ d' = d
    /\ dict_get d' (lit "label") = Some label
    /\ dict_get d' (lit "explanation") = Some explanation.
Proof.
  intros Hpre Hsuf Hl Hlabel Hexpl. exists d. repeat split; try assumption.
  rewrite interpret_span.
  - rewrite json_str_framed by assumption. rewrite Hl. reflexivity.
  - apply span_found_iff, in_or_app. right. left. reflexivity.
Qed.

Lemma framed_object_returned_unchanged_witness :
  exists d',
    interpret cpython_default
      (lit "Analysis: {'label': 'No Drift', 'explanation': 'Stable'}")
    = Return (PyDict d')
    /\ d' = [(lit "label", PyStr (lit "No Drift"));
             (lit "explanation", PyStr (lit "Stable"))]
    /\ dict_get d' (lit "label") = Some (PyStr (lit "No Drift"))
    /\ dict_get d' (lit "explanation") = Some (PyStr (lit "Stable")).
Proof.
  apply (@framed_object_returned_unchanged cpython_default
           (lit "Analysis: ")
           (lit "'label': 'No Drift', 'explanation': 'Stable'") []
           [(lit "label", PyStr (lit "No Drift"));
            (lit "explanation", PyStr (lit "Stable"))]
           (PyStr (lit "No Drift")) (PyStr (lit "Stable"))).
  - vm_compute. intuition discriminate.
  - vm_compute. intuition.
  - vm_compute. reflexivity.
  - vm_compute. reflexivity.
  - vm_compute. reflexivity.
Defined.

End FramedObject.

(** ** Termination and the exceptions that escape *)

Section Totality.

Lemma opens_firstn (n : nat) (s : str) : opens (firstn n s) <= opens s.
Proof.
  revert n. induction s as [|c r IH]; intros [|n]; simpl; try lia.
  specialize (IH n). lia.
Qed.

Lemma opens_skipn (n : nat) (s : str) : opens (skipn n s) <= opens s.
Proof.
  revert n. induction s as [|c r IH]; intros [|n]; simpl; try lia.
  specialize (IH n). lia.
Qed.

Lemma slice_within (s : str) (a b : Z) : within (slice s a b) s.
Proof.
  unfold slice, within. split.
  - rewrite length_firstn, length_skipn. lia.
  - etransitivity; [apply opens_firstn | apply opens_skipn].
Qed.

Lemma interpret_outcomes (rt : runtime) (text : str) :
  interpret_spec rt text (interpret rt text).
Proof.
  unfold interpret. destruct (span_found text); [|exact I].
  pose proof (loads_spec_holds rt (json_str text)) as H.
  pose proof (slice_within text (start_idx text) (end_idx text)) as Hw.
  fold (json_str text) in Hw.
  destruct (Json.loads rt (json_str text)) as [v|[]|];
    cbn [try_except exn_eqb interpret_spec loads_spec] in *;
    try assumption; try exact I; measures.
Qed.

Lemma interpret_agree (rt1 rt2 : runtime) (text : str) :
  within_limits rt1 text -> within_limits rt2 text ->
  interpret rt1 text = interpret rt2 text.
Proof.
  intros H1 H2. unfold interpret. destruct (span_found text); [|reflexivity].
  pose proof (slice_within text (start_idx text) (end_idx text)) as Hw.
  fold (json_str text) in Hw.
  rewrite (@loads_agree rt1 rt2 (json_str text)) by measures.
  reflexivity.
Qed.

Lemma scan_nested_arrays (rt : runtime) (depth : nat) :
  forall n rest, depth < n ->
    Json.scan_once rt depth (repeat LBRACKET n ++ rest) = Raise RecursionError.
Proof.
  induction depth as [|depth IH]; intros [|n] rest Hlt; try lia.
  - reflexivity.
  - change (Json.scan_once rt (S depth) (repeat LBRACKET (S n) ++ rest))
      with (Json.JSONArray (Json.scan_once rt depth) (repeat LBRACKET n ++ rest)).
    specialize (IH n rest ltac:(lia)).
    destruct n as [|n]; [lia|].
    remember (repeat LBRACKET n ++ rest) as r eqn:Hr.
    change (repeat LBRACKET (S n) ++ rest) with (LBRACKET :: repeat LBRACKET n ++ rest) in *.
    rewrite <- Hr in *.
    unfold Json.JSONArray.
    change (Json.skip_ws (LBRACKET :: r)) with (LBRACKET :: r).
    cbv iota beta zeta.
    change (N.eqb LBRACKET (code "]")) with false. cbv iota.
    cbn [Json.array_loop]. rewrite IH. reflexivity.
Qed.

(** An exception raised while reading the value of a key leaves the
    object loop as it is, unless it is [StopIteration]. *)
Lemma object_loop_value_raises (scan : str -> result (pyobj * str))
    (fuel : nat) (pairs : list (str * pyobj)) (s key s1 s2 : str) (e : exn) :
  Json.scanstring s [] = Return (key, s1) ->
  Json.skip_ws s1 = code ":" :: s2 ->
  scan (Json.skip_ws s2) = Raise e ->
  e <> StopIteration ->
  Json.object_loop scan (S fuel) pairs s = Raise e.
Proof.
  intros Hk Hc Hv He. cbn [Json.object_loop]. rewrite Hk. cbn [bind].
  rewrite Hc, N.eqb_refl, Hv.
  destruct e; [exfalso; apply He| | |]; reflexivity.
Qed.

Lemma scan_object_over_nested_arrays (rt : runtime) (d n : nat) :
  d < n ->
  Json.scan_once rt (S d)
    (LBRACE :: (lit "'a':" ++ repeat LBRACKET n) ++ [RBRACE])
  = Raise RecursionError.
Proof.
  intro Hlt.
  pose proof (@scan_nested_arrays rt d n [RBRACE] Hlt) as H.
  destruct n as [|n]; [lia|].
  change (repeat LBRACKET (S n) ++ [RBRACE])
    with (LBRACKET :: repeat LBRACKET n ++ [RBRACE]) in H.
  change ((lit "'a':" ++ repeat LBRACKET (S n)) ++ [RBRACE])
    with (DQUOTE :: 97%N :: DQUOTE :: 58%N :: LBRACKET :: repeat LBRACKET n ++ [RBRACE]).
  remember (repeat LBRACKET n ++ [RBRACE]) as y eqn:Hy. clear Hy.
  change (Json.scan_once rt (S d)
            (LBRACE :: DQUOTE :: 97%N :: DQUOTE :: 58%N :: LBRACKET :: y))
    with (Json.object_loop (Json.scan_once rt d)
            (S (List.length (97%N :: DQUOTE :: 58%N :: LBRACKET :: y))) []
            (97%N :: DQUOTE :: 58%N :: LBRACKET :: y)).
  apply object_loop_value_raises
    with (key := [97%N]) (s1 := 58%N :: LBRACKET :: y) (s2 := LBRACKET :: y);
    [reflexivity | reflexivity | exact H | discriminate].
Qed.

Lemma json_str_deep_text (n : nat) : json_str (deep_text n) = deep_text n.
Proof.
  assert (E : deep_text n
              = [] ++ (LBRACE :: (lit "'a':" ++ repeat LBRACKET n) ++ [RBRACE]) ++ []).
  { rewrite app_nil_r. reflexivity. }
  rewrite E at 1. rewrite json_str_framed by (simpl; tauto).
  rewrite E, app_nil_r. reflexivity.
Qed.

(** Whatever recursion budget the decoder has, a text that opens at least
    as many arrays exceeds it, and the [RecursionError] is not caught. *)
Lemma deep_text_raises (rt : runtime) (n : nat) :
  recursion_limit rt <= n ->
  interpret rt (deep_text n) = Raise RecursionError.
Proof.
  intro Hle.
  rewrite interpret_span by (apply span_found_iff; left; reflexivity).
  rewrite json_str_deep_text.
  unfold Json.loads, Json.decode, Json.raw_decode.
  change (deep_text n) with (LBRACE :: (lit "'a':" ++ repeat LBRACKET n) ++ [RBRACE]).
  change (N.eqb LBRACE Json.BOM) with false. cbv iota.
  change (Json.skip_ws (LBRACE :: ?x)) with (LBRACE :: x).
  destruct (recursion_limit rt) as [|d]; [reflexivity|].
  rewrite scan_object_over_nested_arrays by lia. reflexivity.
Qed.

(** Arrays that are opened and never closed are not read as a value,
    whatever the recursion budget. *)
Lemma scan_unclosed_arrays (rt : runtime) (n : nat) :
  forall depth, exists e,
    Json.scan_once rt depth (repeat LBRACKET (S n) ++ [RBRACE]) = Raise e
    /\ e <> StopIteration.
Proof.
  induction n as [|n IH]; intros [|depth];
    try (exists RecursionError; split; [reflexivity | discriminate]).
  - exists JSONDecodeError. split; [|discriminate].
    destruct depth; reflexivity.
  - destruct (IH depth) as (e & He & Hne).
    exists e. split; [|exact Hne].
    change (Json.scan_once rt (S depth) (repeat LBRACKET (S (S n)) ++ [RBRACE]))
      with (Json.JSONArray (Json.scan_once rt depth)
              (repeat LBRACKET (S n) ++ [RBRACE])).
    remember (repeat LBRACKET (S n) ++ [RBRACE]) as s eqn:Hs.
    assert (Hc : s = LBRACKET :: tl s) by (subst s; reflexivity).
    unfold Json.JSONArray. rewrite Hc.
    change (Json.skip_ws (LBRACKET :: tl s)) with (LBRACKET :: tl s).
    cbv iota beta zeta.
    change (N.eqb LBRACKET (code "]")) with false. cbv iota.
    cbn [Json.array_loop]. rewrite <- Hc, He.
    destruct e; [contradiction | | |]; reflexivity.
Qed.

(** No runtime decodes an object whose value opens arrays it never closes. *)
Lemma deep_text_not_valid (n : nat) : ~ valid_json (json_str (deep_text (S n))).
Proof.
  rewrite json_str_deep_text. intros (rt & v & H). revert H.
  unfold Json.loads, Json.decode, Json.raw_decode.
  change (deep_text (S n))
    with (LBRACE :: DQUOTE :: 97%N :: DQUOTE :: 58%N
          :: repeat LBRACKET (S n) ++ [RBRACE]).
  change (N.eqb LBRACE Json.BOM) with false. cbv iota.
  change (Json.skip_ws (LBRACE :: ?x)) with (LBRACE :: x).
  destruct (recursion_limit rt) as [|d]; [discriminate|].
  destruct (scan_unclosed_arrays rt n d) as (e & He & Hne).
  remember (repeat LBRACKET (S n) ++ [RBRACE]) as y eqn:Hy.
  assert (Hc : Json.skip_ws y = y) by (subst y; reflexivity).
  change (Json.scan_once rt (S d) (LBRACE :: DQUOTE :: 97%N :: DQUOTE :: 58%N :: y))
    with (Json.object_loop (Json.scan_once rt d)
            (S (List.length (97%N :: DQUOTE :: 58%N :: y))) []
            (97%N :: DQUOTE :: 58%N :: y)).
  rewrite object_loop_value_raises
    with (key := [97%N]) (s1 := 58%N :: y) (s2 := y) (e := e);
    [ | reflexivity | reflexivity | rewrite Hc; exact He | exact Hne].
  destruct e; [contradiction | | |]; discriminate.
Qed.

(** C4, as stated, fails: the span of an object that opens 1000 arrays and
    closes none is not valid JSON, and the interpreter raises
    [RecursionError] instead of returning the "Parsing Error" record. *)
Lemma invalid_span_can_raise :
  ~ (forall (rt : runtime) (text : str),
       In LBRACE text -> ~ valid_json (json_str text) ->
       interpret rt text = Return (parsing_error text)).
Proof.
  intro H.
  specialize (H cpython_default (deep_text 1000)
                (or_introl eq_refl) (deep_text_not_valid 999)).
  rewrite (@deep_text_raises cpython_default 1000 (Nat.le_refl _)) in H.
  discriminate H.
Qed.

(** C4, amended. When the text has a [{] and the decoder rejects the span
    with [JSONDecodeError], the result is the "Parsing Error" record, whose
    explanation ends with the whole text as it was generated; every span that
    is not valid JSON is rejected so when the text has no more opening
    brackets than the recursion budget and is no longer than the digit limit
    (or that limit is off). *)
Theorem rejected_span_gives_parsing_error (rt : runtime) (text : str) :
  In LBRACE text ->
  (Json.loads rt (json_str text) = Raise JSONDecodeError ->
   interpret rt text
   = Return (PyDict
       [(lit "label", PyStr (lit "Parsing Error"));
        (lit "explanation",
         PyStr (lit "Could not parse model output as JSON. Raw output: " ++ text))]))
  /\ (~ valid_json (json_str text) ->
      within_limits rt text ->
      interpret rt text
      = Return (PyDict
          [(lit "label", PyStr (lit "Parsing Error"));
           (lit "explanation",
            PyStr (lit "Could not parse model output as JSON. Raw output: " ++ text))])).
Proof.
  intro Hin.
  assert (Hrej : Json.loads rt (json_str text) = Raise JSONDecodeError ->
                 interpret rt text = Return (parsing_error text)).
  { intro Hl. rewrite interpret_span by (apply span_found_iff, Hin).
    rewrite Hl. reflexivity. }
  split; [exact Hrej|].
  intros Hnv [Ho Hd]. apply Hrej.
  pose proof (loads_spec_holds rt (json_str text)) as H.
  pose proof (slice_within text (start_idx text) (end_idx text)) as Hw.
  fold (json_str text) in Hw.
  destruct (Json.loads rt (json_str text)) as [v|[]|] eqn:Hl;
    cbn [loads_spec] in H; try contradiction; try reflexivity.
  - exfalso. apply Hnv. exists rt, v. exact Hl.
  - exfalso. measures.
  - exfalso. measures.
Qed.

Lemma rejected_span_gives_parsing_error_witness :
  interpret cpython_default (lit "{not json}")
  = Return (PyDict
      [(lit "label", PyStr (lit "Parsing Error"));
       (lit "explanation",
        PyStr (lit "Could not parse model output as JSON. Raw output: {not json}"))]).
Proof.
  apply (proj1 (@rejected_span_gives_parsing_error cpython_default
                  (lit "{not json}") ltac:(vm_compute; auto))).
  vm_compute. reflexivity.
Defined.

(** An integer literal of 4301 digits: [int] refuses it with a [ValueError],
    which is not caught either. *)
Lemma long_integer_raises_ValueError :
  interpret cpython_default (lit "{'a':" ++ repeat 49%N 4301 ++ lit "}")
  = Raise ValueError.
Proof. vm_compute. reflexivity. Qed.

(** C5, as stated, fails: on an object that opens 1000 arrays the decoder
    raises [RecursionError], and [analyze] lets it through. *)
Lemma interpreter_does_not_always_return :
  ~ (forall (rt : runtime) (text : str), exists v, interpret rt text = Return v).
Proof.
  intro H. destruct (H cpython_default (deep_text 1000)) as [v Hv].
  rewrite (@deep_text_raises cpython_default 1000 (Nat.le_refl _)) in Hv.
  discriminate Hv.
Qed.

(** C5, amended. The interpreter always terminates, and a
    [JSONDecodeError] never leaves it: the only exceptions that can are
    [RecursionError] and [ValueError].  On a text with no more opening
    brackets than the recursion budget and no longer than the digit limit
    (or with that limit off) it returns a result. *)
Theorem interpret_returns_within_limits (rt : runtime) (text : str) :
  interpret rt text <> Hang
  /\ (forall e, interpret rt text = Raise e -> e = RecursionError \/ e = ValueError)
  /\ (within_limits rt text -> exists v, interpret rt text = Return v).
Proof.
  pose proof (interpret_outcomes rt text) as H.
  destruct (interpret rt text) as [v|e|]; cbn [interpret_spec] in H.
  - split; [discriminate|]. split; [discriminate|]. intros _. eauto.
  - split; [discriminate|]. split.
    + intros e' [= <-]. destruct e; try contradiction; auto.
    + intros [Ho Hd]. exfalso. destruct e; try contradiction; measures.
  - contradiction.
Qed.

Lemma interpret_returns_within_limits_witness :
  exists v, interpret cpython_default (lit "{not json}") = Return v.
Proof.
  apply (proj2 (proj2 (interpret_returns_within_limits cpython_default
                         (lit "{not json}")))).
  split; [vm_compute; lia | right; vm_compute; lia].
Defined.

(** *** Runs of the interpreter under different limits *)

Lemma interpret_compatible (rt1 rt2 : runtime) (text : str) :
  same_unless_limit (interpret rt1 text) (interpret rt2 text).
Proof.
  unfold interpret. apply same_unless_limit_try; [right; reflexivity|].
  destruct (span_found text); [apply loads_compatible | left; reflexivity].
Qed.

(** C7, as stated, fails: what a run gives depends on the recursion budget
    it is left with.  On an object that opens 991 arrays, a run with all of
    the default budget returns the "Parsing Error" record, and a run that
    starts nine frames deeper raises [RecursionError]. *)
Lemma same_text_two_outcomes :
  interpret cpython_default (deep_text 991)
  = Return (parsing_error (deep_text 991))
  /\ interpret {| recursion_limit := 991; int_max_str_digits := 4300 |}
       (deep_text 991)
     = Raise RecursionError
  /\ ~ (forall (rt1 rt2 : runtime) (text : str),
         interpret rt1 text = interpret rt2 text).
Proof.
  assert (H1 : interpret cpython_default (deep_text 991)
               = Return (parsing_error (deep_text 991))).
  { vm_compute. reflexivity. }
  assert (H2 : interpret {| recursion_limit := 991; int_max_str_digits := 4300 |}
                 (deep_text 991) = Raise RecursionError).
  { apply deep_text_raises. apply Nat.le_refl. }
  split; [exact H1|]. split; [exact H2|].
  intro H.
  specialize (H cpython_default
                {| recursion_limit := 991; int_max_str_digits := 4300 |}
                (deep_text 991)).
  rewrite H1, H2 in H. discriminate H.
Qed.

(** C7, amended. Two runs of the interpreter on one text give equal outputs
    unless one of them ends on a limit of the running interpreter, with
    [RecursionError] or [ValueError]: in particular two runs that both return
    a value return the same one, and so do any two runs whose limits the text
    cannot reach. *)
Theorem interpreter_deterministic (rt1 rt2 : runtime) (text : str) :
  (interpret rt1 text = interpret rt2 text
   \/ (interpret rt1 text = Raise RecursionError
       \/ interpret rt1 text = Raise ValueError)
   \/ (interpret rt2 text = Raise RecursionError
       \/ interpret rt2 text = Raise ValueError))
  /\ (forall v1 v2 : pyobj,
        interpret rt1 text = Return v1 -> interpret rt2 text = Return v2 ->
        v1 = v2)
  /\ (within_limits rt1 text -> within_limits rt2 text ->
      interpret rt1 text = interpret rt2 text).
Proof.
  pose proof (interpret_compatible rt1 rt2 text) as H.
  split; [exact H|]. split; [|apply interpret_agree].
  intros v1 v2 E1 E2. rewrite E1, E2 in H.
  destruct H as [H|[[H|H]|[H|H]]]; try discriminate H.
  now injection H.
Qed.

Lemma interpreter_deterministic_witness :
  interpret cpython_default (lit "{'label': 'No Drift'}")
  = interpret {| recursion_limit := 3; int_max_str_digits := 0 |}
      (lit "{'label': 'No Drift'}").
Proof.
  apply (proj2 (proj2 (interpreter_deterministic cpython_default
                         {| recursion_limit := 3; int_max_str_digits := 0 |}
                         (lit "{'label': 'No Drift'}")))).
  - split; [vm_compute; lia | right; vm_compute; lia].
  - split; [vm_compute; lia | left; reflexivity].
Defined.

End Totality.

(** ** The metrics block of the prompt *)

Section Prompt.

Lemma join_cons (sep x : str) (rest : list str) :
  rest <> [] -> join sep (x :: rest) = x ++ sep ++ join sep rest.
Proof. destruct rest; [congruence | reflexivity]. Qed.

Lemma join_cons_sep (x : str) (rest : list str) :
  join [NL] (x :: rest) = x ++ sep_if_any rest ++ join [NL] rest.
Proof. destruct rest; [simpl; now rewrite app_nil_r | reflexivity]. Qed.

Lemma join_app (a b : list str) :
  join [NL] (a ++ b)
  = join [NL] a ++ (match a, b with _ :: _, _ :: _ => [NL] | _, _ => [] end)
    ++ join [NL] b.
Proof.
  induction a as [|x a IH]; [reflexivity|].
  destruct a as [|y a].
  - destruct b as [|z b]; [simpl; now rewrite app_nil_r | reflexivity].
  - change ((x :: y :: a) ++ b) with (x :: (y :: a) ++ b).
    rewrite join_cons by discriminate. rewrite IH.
    rewrite (@join_cons [NL] x (y :: a)) by discriminate.
    rewrite <- !app_assoc. reflexivity.
Qed.

Lemma split_on_absent (sep : char) (x : str) :
  ~ In sep x -> split_on sep x = [x].
Proof.
  induction x as [|c r IH]; intro H; [reflexivity|].
  simpl. destruct (N.eqb_spec c sep) as [->|_]; [exfalso; apply H; now left|].
  rewrite IH by (intro; apply H; now right). reflexivity.
Qed.

Lemma split_on_app (sep : char) (x y : str) :
  ~ In sep x -> split_on sep (x ++ sep :: y) = x :: split_on sep y.
Proof.
  induction x as [|c r IH]; intro H; simpl.
  - now rewrite N.eqb_refl.
  - destruct (N.eqb_spec c sep) as [->|_]; [exfalso; apply H; now left|].
    rewrite IH by (intro; apply H; now right). reflexivity.
Qed.

Lemma split_join (items : list str) :
  items <> [] -> (forall x, In x items -> ~ In NL x) ->
  split_on NL (join [NL] items) = items.
Proof.
  induction items as [|x rest IH]; intros Hne Hfree; [congruence|].
  destruct rest as [|y rest].
  - simpl. apply split_on_absent, Hfree. now left.
  - rewrite join_cons by discriminate.
    change (x ++ [NL] ++ join [NL] (y :: rest))
      with (x ++ NL :: join [NL] (y :: rest)).
    rewrite split_on_app by (apply Hfree; now left).
    rewrite IH; [reflexivity | discriminate |].
    intros z Hz. apply Hfree. now right.
Qed.

(** *** Rendering under the digit limit *)

Lemma renders_dec (rt : runtime) (v : metric_value) :
  {renders rt v} + {~ renders rt v}.
Proof.
  destruct v as [t|z|r]; cbn [renders]; try (left; exact I).
  destruct (Nat.eq_dec (int_max_str_digits rt) 0) as [E|E]; [left; now left|].
  destruct (le_dec (List.length (int_repr (Z.abs z))) (int_max_str_digits rt))
    as [L|L]; [left; now right | right; intros [H|H]; contradiction].
Qed.

Lemma format_value_renders (rt : runtime) (v : metric_value) :
  renders rt v -> format_value rt v = Return (value_text v).
Proof.
  destruct v as [t|z|r]; cbn [renders format_value value_text]; try reflexivity.
  intro H. unfold str_of_int.
  replace (negb (Nat.eqb (int_max_str_digits rt) 0)
           && Nat.ltb (int_max_str_digits rt) (List.length (int_repr (Z.abs z))))
    with false; [reflexivity|].
  symmetry. destruct H as [->|H]; [reflexivity|].
  apply andb_false_intro2, Nat.ltb_ge, H.
Qed.

Lemma format_value_too_long (rt : runtime) (v : metric_value) :
  ~ renders rt v -> format_value rt v = Raise ValueError.
Proof.
  destruct v as [t|z|r]; cbn [renders format_value];
    try (intro H; exfalso; apply H; exact I).
  intro H. unfold str_of_int.
  destruct (Nat.eqb_spec (int_max_str_digits rt) 0) as [E|E];
    [exfalso; apply H; now left|].
  destruct (Nat.ltb_spec (int_max_str_digits rt)
              (List.length (int_repr (Z.abs z)))) as [L|L];
    [reflexivity | exfalso; apply H; now right].
Qed.

Lemma metric_lines_render (rt : runtime) (metrics : metrics_dict) :
  (forall entry, In entry metrics -> renders rt (snd entry)) ->
  metric_lines rt metrics = Return (map line_text metrics).
Proof.
  induction metrics as [|entry rest IH]; intro H; [reflexivity|].
  cbn [metric_lines map]. unfold metric_line.
  rewrite format_value_renders by (apply H; now left).
  cbn [bind]. rewrite IH by (intros e He; apply H; now right).
  reflexivity.
Qed.

Lemma metric_lines_raise (rt : runtime) (metrics : metrics_dict) :
  (exists entry, In entry metrics /\ ~ renders rt (snd entry)) ->
  metric_lines rt metrics = Raise ValueError.
Proof.
  induction metrics as [|entry rest IH]; intros (bad & Hin & Hbad);
    [contradiction|].
  cbn [metric_lines]. unfold metric_line.
  destruct (renders_dec rt (snd entry)) as [Hr|Hr].
  - rewrite (format_value_renders _ _ Hr). cbn [bind].
    rewrite IH; [reflexivity|].
    destruct Hin as [->|Hin]; [contradiction|]. now exists bad.
  - rewrite (format_value_too_long _ _ Hr). reflexivity.
Qed.

Lemma metrics_str_renders (rt : runtime) (metrics : metrics_dict) :
  (forall entry, In entry metrics -> renders rt (snd entry)) ->
  metrics_str rt metrics = Return (join [NL] (map line_text metrics)).
Proof.
  intro H. unfold metrics_str. now rewrite (metric_lines_render _ _ H).
Qed.

Lemma line_text_one_line (entry : str * metric_value) :
  ~ In NL (fst entry) -> ~ In NL (value_text (snd entry)) ->
  ~ In NL (line_text entry).
Proof.
  intros Hname Hvalue Hnl. unfold line_text in Hnl.
  apply in_app_or in Hnl as [Hnl|Hnl].
  { vm_compute in Hnl. intuition discriminate. }
  apply in_app_or in Hnl as [Hnl|Hnl]; [exact (Hname Hnl)|].
  apply in_app_or in Hnl as [Hnl|Hnl]; [|exact (Hvalue Hnl)].
  vm_compute in Hnl. intuition discriminate.
Qed.

(** C9, as stated, fails: a text value that holds a newline spreads its
    entry over two lines, and an integer of 4301 digits is not rendered at
    all, the f-string raises [ValueError]. *)
Lemma one_entry_is_not_always_one_line :
  (exists block,
      metrics_str cpython_default
        [(lit "note", MText (lit "stable" ++ [NL] ++ lit "- drift: 1"))]
      = Return block
      /\ split_on NL block = [lit "- note: stable"; lit "- drift: 1"])
  /\ metrics_str cpython_default [(lit "samples", MInt (10 ^ 4300))]
     = Raise ValueError.
Proof.
  split.
  - eexists. split; [reflexivity|]. vm_compute. reflexivity.
  - vm_compute. reflexivity.
Qed.

(** C9, amended. When every integer value has no more digits than the digit
    limit allows (or the limit is off), the metrics block is rendered, and it
    is the lines [- <name>: <value>] of the entries in the order of the
    dictionary, joined by newlines: the line of an entry comes after the
    block of the entries before it and before the block of those after it.
    When moreover the dictionary is not empty and no name and no rendered
    value holds a newline, the lines of the block are exactly these lines,
    one per entry.  With an integer value of more digits nothing is rendered:
    [ValueError] is raised. *)
Theorem metrics_block_keeps_order (rt : runtime) (metrics : metrics_dict) :
  ((forall entry, In entry metrics -> renders rt (snd entry)) ->
   exists block,
     metrics_str rt metrics = Return block
     /\ block
        = join [NL]
            (map (fun entry =>
                    lit "- " ++ fst entry ++ lit ": " ++ value_text (snd entry))
               metrics)
     /\ (forall (before after : metrics_dict) (entry : str * metric_value),
           metrics = before ++ entry :: after ->
           exists block_before block_after,
             metrics_str rt before = Return block_before
             /\ metrics_str rt after = Return block_after
             /\ block
                = block_before ++ sep_if_any before
                  ++ (lit "- " ++ fst entry ++ lit ": "
                      ++ value_text (snd entry))
                  ++ sep_if_any after ++ block_after)
     /\ (metrics <> [] ->
         (forall entry, In entry metrics ->
            ~ In NL (fst entry) /\ ~ In NL (value_text (snd entry))) ->
         split_on NL block
         = map (fun entry =>
                  lit "- " ++ fst entry ++ lit ": " ++ value_text (snd entry))
             metrics))
  /\ ((exists entry, In entry metrics /\ ~ renders rt (snd entry)) ->
      metrics_str rt metrics = Raise ValueError).
Proof.
  split.
  - intro Hr. exists (join [NL] (map line_text metrics)).
    split; [apply metrics_str_renders, Hr|]. split; [reflexivity|]. split.
    + intros before after entry ->.
      exists (join [NL] (map line_text before)),
             (join [NL] (map line_text after)).
      split; [apply metrics_str_renders; intros e He; apply Hr, in_or_app;
              now left|].
      split; [apply metrics_str_renders; intros e He; apply Hr, in_or_app;
              right; now right|].
      rewrite map_app, join_app. cbn [map]. rewrite join_cons_sep.
      destruct before, after; reflexivity.
    + intros Hne Hfree. apply split_join.
      * destruct metrics; [congruence | discriminate].
      * intros x Hx. apply in_map_iff in Hx as (entry & <- & Hin).
        destruct (Hfree entry Hin) as [Hname Hvalue].
        now apply line_text_one_line.
  - intro Hbad. unfold metrics_str.
    now rewrite (metric_lines_raise _ _ Hbad).
Qed.

Lemma metrics_block_keeps_order_witness :
  exists block,
    metrics_str cpython_default
      [(lit "accuracy", MFloat (lit "0.91")); (lit "samples", MInt 1200);
       (lit "status", MText (lit "stable"))]
    = Return block
    /\ block
       = join [NL] [lit "- accuracy: 0.91"; lit "- samples: 1200";
                    lit "- status: stable"]
    /\ split_on NL block
       = [lit "- accuracy: 0.91"; lit "- samples: 1200"; lit "- status: stable"].
Proof.
  destruct (proj1 (metrics_block_keeps_order cpython_default
                     [(lit "accuracy", MFloat (lit "0.91"));
                      (lit "samples", MInt 1200);
                      (lit "status", MText (lit "stable"))]))
    as (block & Hblock & Hlines & _ & Hsplit).
  - intros entry Hin. vm_compute in Hin.
    destruct Hin as [<-|[<-|[<-|[]]]]; vm_compute; auto.
    right. lia.
  - exists block. split; [exact Hblock|]. split; [exact Hlines|].
    apply Hsplit; [discriminate|].
    intros entry Hin. vm_compute in Hin.
    destruct Hin as [<-|[<-|[<-|[]]]]; vm_compute; intuition discriminate.
Defined.

End Prompt.

(** ** The life of the model object *)

Section ClassFacts.

Variables Model Tokenizer Error : Type.

Local Notation "'externals'" := (AuditModel.externals Model Tokenizer Error).
Local Notation "'instance'" := (AuditModel.instance Model Tokenizer).
Local Notation "'loading'" := (lit "Loading model...").
Local Notation "'loaded'" := (lit "Model loaded successfully.").

Lemma device_truthy (self : instance) :
  AuditModel.device self = lit "mps" \/ AuditModel.device self = lit "cpu" ->
  AuditModel.truthy (AuditModel.device self) = true.
Proof. intros [->| ->]; reflexivity. Qed.

Lemma load_model_consistent (ext : externals) (self : instance) :
  consistent self -> consistent (snd (fst (AuditModel.load_model ext self))).
Proof.
  intros [Hd Ht]. unfold AuditModel.load_model.
  destruct (AuditModel.model self) eqn:Hm.
  { split; cbn [fst snd]; [exact Hd | intros _; apply Ht; discriminate]. }
  assert (Hself : consistent self).
  { split; [exact Hd | rewrite Hm; intro X; now contradiction X]. }
  destruct (AuditModel.tokenizer_from_pretrained ext AuditModel.MODEL_ID true)
    as [tok|e]; [|exact Hself].
  destruct (AuditModel.model_from_pretrained ext AuditModel.MODEL_ID
              AuditModel.model_kwargs) as [m|e].
  - cbn [AuditModel.device]. rewrite (device_truthy self Hd).
    destruct (AuditModel.model_to ext m (AuditModel.device self)); split; cbn;
      try exact Hd; discriminate.
  - split; cbn; [exact Hd | discriminate].
Qed.

Lemma analyze_state (ext : externals) (rt : runtime) (self : instance)
    (metrics : metrics_dict) :
  snd (fst (AuditModel.analyze ext rt self metrics))
  = snd (fst (AuditModel.load_model ext self)).
Proof.
  unfold AuditModel.analyze. destruct (AuditModel.model self) eqn:Hm.
  - unfold AuditModel.load_model. rewrite Hm. reflexivity.
  - destruct (AuditModel.load_model ext self) as [[printed self'] [u|e]];
      reflexivity.
Qed.

Lemma reachable_consistent (self : instance) :
  @AuditModel.reachable Model Tokenizer Error self -> consistent self.
Proof.
  induction 1 as [ext|ext self _ IH|ext rt self metrics _ IH].
  - split; cbn; [|congruence].
    unfold AuditModel._get_device.
    destruct (AuditModel.mps_is_available ext); auto.
  - apply load_model_consistent, IH.
  - rewrite analyze_state. apply load_model_consistent, IH.
Qed.

(** With a model in place, [load_model] returns at once. *)
Lemma load_model_when_loaded (ext : externals) (self : instance) :
  AuditModel.model self <> None ->
  AuditModel.load_model ext self = ([], self, AuditModel.Ok tt).
Proof.
  intro H. unfold AuditModel.load_model.
  destruct (AuditModel.model self); [reflexivity | contradiction].
Qed.

(** [analyze] begins with what [load_model] does. *)
Lemma analyze_after_load (ext : externals) (rt : runtime) (self : instance)
    (metrics : metrics_dict) :
  AuditModel.analyze ext rt self metrics
  = let '(printed, self', answer) := AuditModel.load_model ext self in
    match answer with
    | AuditModel.Raised e => (printed, self', AuditModel.Raised e)
    | AuditModel.Ok _ =>
        (printed, self',
         AuditModel.Ok (ending_of ext rt self' metrics))
    end.
Proof.
  unfold AuditModel.analyze. destruct (AuditModel.model self) eqn:Hm.
  - rewrite load_model_when_loaded by congruence. reflexivity.
  - destruct (AuditModel.load_model ext self) as [[printed self'] [u|e]];
      reflexivity.
Qed.

(** An answer of [load_model] without exception comes with a model. *)
Lemma load_model_ok_has_model (ext : externals) (self self' : instance)
    (printed : list str) :
  AuditModel.load_model ext self = (printed, self', AuditModel.Ok tt) ->
  AuditModel.model self' <> None.
Proof.
  unfold AuditModel.load_model.
  destruct (AuditModel.model self) eqn:Hm.
  { intros [= _ <-]. congruence. }
  destruct (AuditModel.tokenizer_from_pretrained ext AuditModel.MODEL_ID true)
    as [tok|e]; [|discriminate].
  destruct (AuditModel.model_from_pretrained ext AuditModel.MODEL_ID
              AuditModel.model_kwargs) as [m|e]; [|discriminate].
  destruct (AuditModel.truthy _).
  - destruct (AuditModel.model_to ext m _); [|discriminate].
    intros [= _ <-]. discriminate.
  - intros [= _ <-]. discriminate.
Qed.

(** X1. Every object a program can hold has "mps" or "cpu" as its device,
    and never holds a model without a tokenizer. *)
Theorem reachable_object_invariant (self : instance) :
  @AuditModel.reachable Model Tokenizer Error self ->
  (AuditModel.device self = lit "mps" \/ AuditModel.device self = lit "cpu")
  /\ (AuditModel.model self <> None -> AuditModel.tokenizer self <> None).
Proof. intro H. exact (reachable_consistent H). Qed.

(** X2. Once [load_model] has returned without exception the object has a
    model, and no later call loads again: [load_model] and the loading step
    of [analyze] print nothing and leave the object as it is, whatever the
    libraries would answer. *)
Theorem successful_load_is_kept (ext : externals) (self self' : instance)
    (printed : list str) :
  AuditModel.load_model ext self = (printed, self', AuditModel.Ok tt) ->
  AuditModel.model self' <> None
  /\ (forall ext' : externals,
        AuditModel.load_model ext' self' = ([], self', AuditModel.Ok tt))
  /\ (forall (ext' : externals) (rt : runtime) (metrics : metrics_dict),
        fst (AuditModel.analyze ext' rt self' metrics) = ([], self')).
Proof.
  intro H. pose proof (load_model_ok_has_model _ _ H) as Hm.
  split; [exact Hm|]. split.
  - intro ext'. apply load_model_when_loaded, Hm.
  - intros ext' rt metrics. rewrite analyze_after_load.
    rewrite load_model_when_loaded by exact Hm. reflexivity.
Qed.

(** X3. When [load_model] raises, it raises the exception of the library
    call that failed, after printing it; the object then is unchanged
    (tokenizer failed), or has the new tokenizer and no model (model failed),
    or has the tokenizer and the model that could not be moved. *)
Theorem load_failure_cases (ext : externals) (self self' : instance)
    (printed : list str) (e : Error) :
  AuditModel.load_model ext self = (printed, self', AuditModel.Raised e) ->
  AuditModel.model self = None
  /\ printed = [loading; lit "Error loading model: " ++ AuditModel.format_error ext e]
  /\ AuditModel.device self' = AuditModel.device self
  /\ ((AuditModel.tokenizer_from_pretrained ext AuditModel.MODEL_ID true
        = AuditModel.Raised e /\ self' = self)
      \/ (exists tok,
            AuditModel.tokenizer_from_pretrained ext AuditModel.MODEL_ID true
            = AuditModel.Ok tok
            /\ AuditModel.model_from_pretrained ext AuditModel.MODEL_ID
                 AuditModel.model_kwargs = AuditModel.Raised e
            /\ AuditModel.model self' = None
            /\ AuditModel.tokenizer self' = Some tok)
      \/ (exists tok m,
            AuditModel.tokenizer_from_pretrained ext AuditModel.MODEL_ID true
            = AuditModel.Ok tok
            /\ AuditModel.model_from_pretrained ext AuditModel.MODEL_ID
                 AuditModel.model_kwargs = AuditModel.Ok m
            /\ AuditModel.model_to ext m (AuditModel.device self)
               = AuditModel.Raised e
            /\ AuditModel.model self' = Some m
            /\ AuditModel.tokenizer self' = Some tok)).
Proof.
  unfold AuditModel.load_model.
  destruct (AuditModel.model self) eqn:Hm; [discriminate|].
  destruct (AuditModel.tokenizer_from_pretrained ext AuditModel.MODEL_ID true)
    as [tok|e1].
  2: { intros [= <- <- <-]. repeat split. left. split; reflexivity. }
  destruct (AuditModel.model_from_pretrained ext AuditModel.MODEL_ID
              AuditModel.model_kwargs) as [m|e1].
  2: { intros [= <- <- <-]. repeat split. right. left. exists tok.
       repeat split. }
  cbn [AuditModel.device].
  destruct (AuditModel.truthy (AuditModel.device self)); [|discriminate].
  destruct (AuditModel.model_to ext m (AuditModel.device self)) as [m'|e1]
    eqn:Hto; [discriminate|].
  intros [= <- <- <-]. repeat split. right. right. exists tok, m.
  repeat split; try assumption.
Qed.

(** X4. On a reachable object without a model, when the three library calls
    succeed, [load_model] always moves the model (the test of the device never
    skips the move), stores the tokenizer and the moved model, and prints the
    two lines. *)
Theorem fresh_load_stores_moved_model (ext : externals) (self : instance)
    (tok : Tokenizer) (m m' : Model) :
  @AuditModel.reachable Model Tokenizer Error self ->
  AuditModel.model self = None ->
  AuditModel.tokenizer_from_pretrained ext AuditModel.MODEL_ID true
  = AuditModel.Ok tok ->
  AuditModel.model_from_pretrained ext AuditModel.MODEL_ID AuditModel.model_kwargs
  = AuditModel.Ok m ->
  AuditModel.model_to ext m (AuditModel.device self) = AuditModel.Ok m' ->
  AuditModel.load_model ext self
  = ([loading; loaded],
     {| AuditModel.model := Some m'; AuditModel.tokenizer := Some tok;
        AuditModel.device := AuditModel.device self |},
     AuditModel.Ok tt).
Proof.
  intros Hr Hm Ht Hl Hto. destruct (reachable_consistent Hr) as [Hd _].
  unfold AuditModel.load_model. rewrite Hm, Ht, Hl. cbn [AuditModel.device].
  rewrite (device_truthy self Hd), Hto. reflexivity.
Qed.

(** X5. When only the move to the device fails, [load_model] raises, but the
    model stays in the object: every later [analyze] skips loading, and once
    the prompt is rendered it generates with the model that was not moved,
    and interprets the text or passes the exception of the pipeline on (when
    an integer metric is too long to render, it raises [ValueError] and
    generates nothing). *)
Theorem failed_move_is_not_retried (ext : externals) (self : instance)
    (tok : Tokenizer) (m : Model) (e : Error) :
  @AuditModel.reachable Model Tokenizer Error self ->
  AuditModel.model self = None ->
  AuditModel.tokenizer_from_pretrained ext AuditModel.MODEL_ID true
  = AuditModel.Ok tok ->
  AuditModel.model_from_pretrained ext AuditModel.MODEL_ID AuditModel.model_kwargs
  = AuditModel.Ok m ->
  AuditModel.model_to ext m (AuditModel.device self) = AuditModel.Raised e ->
  exists self',
    AuditModel.load_model ext self
    = ([loading; lit "Error loading model: " ++ AuditModel.format_error ext e],
       self', AuditModel.Raised e)
    /\ forall (ext' : externals) (rt : runtime) (metrics : metrics_dict),
        AuditModel.analyze ext' rt self' metrics
        = ([], self',
           AuditModel.Ok
             match prompt rt metrics with
             | Return prompt_text =>
                 match AuditModel.text_generation ext' (Some m) (Some tok)
                         [{| AuditModel.role := lit "user";
                             AuditModel.content := prompt_text |}]
                         AuditModel.generation_args with
                 | AuditModel.Ok generated_text =>
                     AuditModel.Ended (interpret rt generated_text)
                 | AuditModel.Raised e' => AuditModel.GenerationRaised e'
                 end
             | Raise e' => AuditModel.Ended (Raise e')
             | Hang => AuditModel.Ended Hang
             end).
Proof.
  intros Hr Hm Ht Hl Hto. destruct (reachable_consistent Hr) as [Hd _].
  eexists. split.
  - unfold AuditModel.load_model. rewrite Hm, Ht, Hl. cbn [AuditModel.device].
    rewrite (device_truthy self Hd), Hto. reflexivity.
  - intros ext' rt metrics. reflexivity.
Qed.

(** X6. When the loading step of [analyze] does not raise on a reachable
    object, the object holds a model and a tokenizer afterwards, and the
    method ends as the rendering of the prompt followed by the generation
    from the two for the one user message that carries this prompt and the
    interpretation of the generated text; so a value that [analyze] returns
    is the interpretation of a text generated in this way. *)
Theorem analyze_generates_from_loaded_model (ext : externals) (rt : runtime)
    (self self' : instance) (metrics : metrics_dict) (printed : list str)
    (answer : AuditModel.ending Error) :
  @AuditModel.reachable Model Tokenizer Error self ->
  AuditModel.analyze ext rt self metrics = (printed, self', AuditModel.Ok answer) ->
  exists m tok,
    AuditModel.model self' = Some m
    /\ AuditModel.tokenizer self' = Some tok
    /\ answer
       = match prompt rt metrics with
         | Return prompt_text =>
             match AuditModel.text_generation ext (Some m) (Some tok)
                     [{| AuditModel.role := lit "user";
                         AuditModel.content := prompt_text |}]
                     AuditModel.generation_args with
             | AuditModel.Ok generated_text =>
                 AuditModel.Ended (interpret rt generated_text)
             | AuditModel.Raised e => AuditModel.GenerationRaised e
             end
         | Raise e => AuditModel.Ended (Raise e)
         | Hang => AuditModel.Ended Hang
         end
    /\ (forall v : pyobj,
          answer = AuditModel.Ended (Return v) ->
          exists prompt_text generated_text,
            prompt rt metrics = Return prompt_text
            /\ AuditModel.text_generation ext (Some m) (Some tok)
                 [{| AuditModel.role := lit "user";
                     AuditModel.content := prompt_text |}]
                 AuditModel.generation_args
               = AuditModel.Ok generated_text
            /\ interpret rt generated_text = Return v).
Proof.
  intros Hr H.
  assert (Hc : consistent self').
  { replace self' with (snd (fst (AuditModel.analyze ext rt self metrics)))
      by (rewrite H; reflexivity).
    rewrite analyze_state.
    apply load_model_consistent, reachable_consistent, Hr. }
  rewrite analyze_after_load in H.
  destruct (AuditModel.load_model ext self) as [[printed0 self0] [[]|e]] eqn:Hl;
    [|discriminate].
  injection H as <- <- <-.
  pose proof (load_model_ok_has_model _ _ Hl) as Hm.
  destruct Hc as [_ Ht]. specialize (Ht Hm).
  destruct (AuditModel.model self0) as [m|] eqn:Em; [|contradiction].
  destruct (AuditModel.tokenizer self0) as [tok|] eqn:Et; [|contradiction].
  exists m, tok. split; [reflexivity|]. split; [reflexivity|].
  unfold ending_of. rewrite Em, Et. split; [reflexivity|].
  intros v Hv. destruct (prompt rt metrics) as [prompt_text|e|];
    try discriminate Hv.
  destruct (AuditModel.text_generation ext (Some m) (Some tok) _ _)
    as [generated_text|e] eqn:Hg; [|discriminate Hv].
  exists prompt_text, generated_text.
  split; [reflexivity|]. split; [exact Hg|]. now injection Hv.
Qed.

(** X7. [analyze] is left by an exception of its loading step exactly when
    [load_model] raises: with the same exception, the same lines printed and
    the same object left, and nothing is rendered or generated. *)
Theorem analyze_raises_iff_load_model_raises (ext : externals) (rt : runtime)
    (self self' : instance) (metrics : metrics_dict) (printed : list str)
    (e : Error) :
  AuditModel.analyze ext rt self metrics = (printed, self', AuditModel.Raised e)
  <-> AuditModel.load_model ext self = (printed, self', AuditModel.Raised e).
Proof.
  rewrite analyze_after_load.
  destruct (AuditModel.load_model ext self) as [[printed0 self0] [[]|e0]];
    split; intro H; try discriminate; injection H as <- <- <-; reflexivity.
Qed.

(** X17. A load that failed before a model was stored is tried again by the
    next [analyze]: when the loading libraries then answer, the model is
    loaded and moved and the two lines are printed; then the prompt is
    rendered, and the text generated with the new model is interpreted or the
    exception of the pipeline passed on (when an integer metric is too long
    to render, [ValueError] is raised after the load). *)
Theorem failed_download_is_retried (ext ext' : externals) (rt : runtime)
    (self self' : instance) (printed : list str) (e : Error)
    (metrics : metrics_dict) (tok : Tokenizer) (m m' : Model) :
  @AuditModel.reachable Model Tokenizer Error self ->
  AuditModel.load_model ext self = (printed, self', AuditModel.Raised e) ->
  AuditModel.model self' = None ->
  AuditModel.tokenizer_from_pretrained ext' AuditModel.MODEL_ID true
  = AuditModel.Ok tok ->
  AuditModel.model_from_pretrained ext' AuditModel.MODEL_ID AuditModel.model_kwargs
  = AuditModel.Ok m ->
  AuditModel.model_to ext' m (AuditModel.device self) = AuditModel.Ok m' ->
  AuditModel.analyze ext' rt self' metrics
  = ([loading; loaded],
     {| AuditModel.model := Some m'; AuditModel.tokenizer := Some tok;
        AuditModel.device := AuditModel.device self |},
     AuditModel.Ok
       match prompt rt metrics with
       | Return prompt_text =>
           match AuditModel.text_generation ext' (Some m') (Some tok)
                   [{| AuditModel.role := lit "user";
                       AuditModel.content := prompt_text |}]
                   AuditModel.generation_args with
           | AuditModel.Ok generated_text =>
               AuditModel.Ended (interpret rt generated_text)
           | AuditModel.Raised e' => AuditModel.GenerationRaised e'
           end
       | Raise e' => AuditModel.Ended (Raise e')
       | Hang => AuditModel.Ended Hang
       end).
Proof.
  intros Hr Hl Hm Ht Hml Hto.
  assert (Hc : consistent self').
  { replace self' with (snd (fst (AuditModel.load_model ext self)))
      by (rewrite Hl; reflexivity).
    apply load_model_consistent, reachable_consistent, Hr. }
  assert (Hd : AuditModel.device self' = AuditModel.device self).
  { revert Hl. unfold AuditModel.load_model.
    destruct (AuditModel.model self); [discriminate|].
    destruct (AuditModel.tokenizer_from_pretrained ext AuditModel.MODEL_ID true);
      [|intros [= _ <- _]; reflexivity].
    destruct (AuditModel.model_from_pretrained ext AuditModel.MODEL_ID
                AuditModel.model_kwargs); [|intros [= _ <- _]; reflexivity].
    destruct (AuditModel.truthy _); [|discriminate].
    destruct (AuditModel.model_to ext _ _); [discriminate|].
    intros [= _ <- _]. reflexivity. }
  destruct Hc as [Hdev _].
  unfold AuditModel.analyze, AuditModel.load_model.
  rewrite Hm, Ht, Hml. cbn [AuditModel.device].
  rewrite (device_truthy self' Hdev), Hd, Hto. reflexivity.
Qed.

End ClassFacts.

Lemma reachable_object_invariant_witness :
  (AuditModel.device
     (snd (fst (AuditModel.load_model working_externals
                  (snd (AuditModel.__init__ working_externals))))) = lit "mps"
   \/ AuditModel.device
        (snd (fst (AuditModel.load_model working_externals
                     (snd (AuditModel.__init__ working_externals))))) = lit "cpu")
  /\ (AuditModel.model
        (snd (fst (AuditModel.load_model working_externals
                     (snd (AuditModel.__init__ working_externals))))) <> None ->
      AuditModel.tokenizer
        (snd (fst (AuditModel.load_model working_externals
                     (snd (AuditModel.__init__ working_externals))))) <> None).
Proof.
  apply (@reachable_object_invariant nat nat str).
  apply AuditModel.reach_load_model, AuditModel.reach_init.
Defined.

Lemma successful_load_is_kept_witness :
  AuditModel.load_model offline_externals
    {| AuditModel.model := Some 3; AuditModel.tokenizer := Some 1;
       AuditModel.device := lit "mps" |}
  = ([], {| AuditModel.model := Some 3; AuditModel.tokenizer := Some 1;
            AuditModel.device := lit "mps" |}, AuditModel.Ok tt).
Proof.
  apply (proj1 (proj2 (@successful_load_is_kept nat nat str working_externals
                         (snd (AuditModel.__init__ working_externals))
                         _ _ eq_refl))).
Defined.

Lemma load_failure_cases_witness :
  AuditModel.load_model offline_externals
    (snd (AuditModel.__init__ offline_externals))
  = ([lit "Loading model..."; lit "Error loading model: offline"],
     snd (AuditModel.__init__ offline_externals),
     AuditModel.Raised (lit "offline"))
  /\ AuditModel.model (snd (AuditModel.__init__ offline_externals)) = None.
Proof.
  split; [reflexivity|].
  apply (@load_failure_cases nat nat str offline_externals
           (snd (AuditModel.__init__ offline_externals)) _ _ _ eq_refl).
Defined.

Lemma fresh_load_stores_moved_model_witness :
  AuditModel.load_model working_externals
    (snd (AuditModel.__init__ working_externals))
  = ([lit "Loading model..."; lit "Model loaded successfully."],
     {| AuditModel.model := Some 3; AuditModel.tokenizer := Some 1;
        AuditModel.device := lit "mps" |},
     AuditModel.Ok tt).
Proof.
  apply (@fresh_load_stores_moved_model nat nat str working_externals
           (snd (AuditModel.__init__ working_externals)) 1 2 3);
    try reflexivity.
  apply AuditModel.reach_init.
Defined.

Lemma failed_move_is_not_retried_witness :
  exists self',
    AuditModel.load_model no_device_externals
      (snd (AuditModel.__init__ no_device_externals))
    = ([lit "Loading model..."; lit "Error loading model: out of memory"],
       self', AuditModel.Raised (lit "out of memory"))
    /\ forall (ext' : AuditModel.externals nat nat str) (rt : runtime)
              (metrics : metrics_dict),
        AuditModel.analyze ext' rt self' metrics
        = ([], self',
           AuditModel.Ok
             match prompt rt metrics with
             | Return prompt_text =>
                 match AuditModel.text_generation ext' (Some 2) (Some 1)
                         [{| AuditModel.role := lit "user";
                             AuditModel.content := prompt_text |}]
                         AuditModel.generation_args with
                 | AuditModel.Ok generated_text =>
                     AuditModel.Ended (interpret rt generated_text)
                 | AuditModel.Raised e' => AuditModel.GenerationRaised e'
                 end
             | Raise e' => AuditModel.Ended (Raise e')
             | Hang => AuditModel.Ended Hang
             end).
Proof.
  apply (@failed_move_is_not_retried nat nat str no_device_externals
           (snd (AuditModel.__init__ no_device_externals)) 1 2
           (lit "out of memory"));
    try reflexivity.
  apply AuditModel.reach_init.
Defined.

Lemma failed_download_is_retried_witness :
  AuditModel.analyze working_externals cpython_default
    (snd (AuditModel.__init__ offline_externals)) [(lit "accuracy", MInt 1)]
  = ([lit "Loading model..."; lit "Model loaded successfully."],
     {| AuditModel.model := Some 3; AuditModel.tokenizer := Some 1;
        AuditModel.device := lit "cpu" |},
     AuditModel.Ok
       (AuditModel.Ended
          (Return (PyDict [(lit "label", PyStr (lit "No Drift"))])))).
Proof.
  apply (@failed_download_is_retried nat nat str offline_externals
           working_externals cpython_default
           (snd (AuditModel.__init__ offline_externals))
           (snd (AuditModel.__init__ offline_externals))
           [lit "Loading model..."; lit "Error loading model: offline"]
           (lit "offline") [(lit "accuracy", MInt 1)] 1 2 3);
    try reflexivity.
  apply AuditModel.reach_init.
Defined.

Lemma analyze_generates_from_loaded_model_witness :
  exists m tok,
    Some 3 = Some m /\ Some 1 = Some tok
    /\ AuditModel.Ended (Return (PyDict [(lit "label", PyStr (lit "No Drift"))]))
       = match prompt cpython_default [(lit "accuracy", MInt 1)] with
         | Return prompt_text =>
             match AuditModel.text_generation working_externals (Some m)
                     (Some tok)
                     [{| AuditModel.role := lit "user";
                         AuditModel.content := prompt_text |}]
                     AuditModel.generation_args with
             | AuditModel.Ok generated_text =>
                 AuditModel.Ended (interpret cpython_default generated_text)
             | AuditModel.Raised e => AuditModel.GenerationRaised e
             end
         | Raise e => AuditModel.Ended (Raise e)
         | Hang => AuditModel.Ended Hang
         end
    /\ (forall v : pyobj,
          @AuditModel.Ended str
            (Return (PyDict [(lit "label", PyStr (lit "No Drift"))]))
          = AuditModel.Ended (Return v) ->
          exists prompt_text generated_text,
            prompt cpython_default [(lit "accuracy", MInt 1)] = Return prompt_text
            /\ AuditModel.text_generation working_externals (Some m) (Some tok)
                 [{| AuditModel.role := lit "user";
                     AuditModel.content := prompt_text |}]
                 AuditModel.generation_args
               = AuditModel.Ok generated_text
            /\ interpret cpython_default generated_text = Return v).
Proof.
  apply (@analyze_generates_from_loaded_model nat nat str working_externals
           cpython_default (snd (AuditModel.__init__ working_externals))
           {| AuditModel.model := Some 3; AuditModel.tokenizer := Some 1;
              AuditModel.device := lit "mps" |}
           [(lit "accuracy", MInt 1)]
           [lit "Loading model..."; lit "Model loaded successfully."]).
  - apply AuditModel.reach_init.
  - vm_compute. reflexivity.
Defined.

(** ** More on the span and on the fallback record *)

Section SpanAndFallback.

Local Open Scope Z_scope.

Lemma rfind_cases (c : char) (s : str) :
  rfind s c = -1
  \/ exists pre post, s = pre ++ c :: post /\ ~ In c post /\ rfind s c = len pre.
Proof.
  unfold rfind.
  destruct (rfind_from_spec c s 0 (-1)) as [[_ H]|(pre & post & Hs & Hni & H)].
  - left. exact H.
  - right. exists pre, post. repeat split; [exact Hs | exact Hni | lia].
Qed.

Lemma span_cases (text : str) :
  In LBRACE text ->
  (json_str text = [] /\ rfind text RBRACE < find text LBRACE)
  \/ (exists pre body suf,
        text = pre ++ (LBRACE :: body ++ [RBRACE]) ++ suf
        /\ ~ In LBRACE pre /\ ~ In RBRACE suf
        /\ json_str text = LBRACE :: body ++ [RBRACE]).
Proof.
  intro Hin.
  destruct (Z.ltb_spec (rfind text RBRACE) (find text LBRACE)) as [Hlt|Hge].
  { left. split; [apply json_str_empty; assumption | exact Hlt]. }
  right.
  destruct (find_present LBRACE text Hin) as (pre & post & Hs & Hpre & Hf).
  destruct (rfind_cases RBRACE text) as [Hr|(pre2 & suf & Hs2 & Hsuf & Hr)].
  { pose proof (len_nonneg pre). lia. }
  assert (Hlen : (List.length pre <= List.length pre2)%nat)
    by (unfold len in *; lia).
  rewrite Hs in Hs2. apply app_eq_app in Hs2 as [l [[E1 E2]|[E1 E2]]].
  - destruct l as [|c l].
    + simpl in E2. discriminate E2.
    + exfalso. rewrite E1, length_app in Hlen. cbn [List.length] in Hlen. lia.
  - destruct l as [|c body].
    + simpl in E2. discriminate E2.
    + injection E2 as <- E2. exists pre, body, suf.
      assert (E : text = pre ++ (LBRACE :: body ++ [RBRACE]) ++ suf).
      { rewrite Hs, E2. simpl. rewrite <- app_assoc. reflexivity. }
      repeat split; try assumption.
      rewrite E at 1. apply json_str_framed; assumption.
Qed.

(** X8. The text handed to the decoder is empty, when no [}] comes after the
    first [{], and otherwise runs from the first [{] of the text to its last
    [}]: the text is a part without [{], then the span, then a part without
    [}]. *)
Theorem span_is_first_open_to_last_close (text : str) :
  In LBRACE text ->
  (json_str text = [] /\ rfind text RBRACE < find text LBRACE)
  \/ (exists pre body suf,
        text = pre ++ (LBRACE :: body ++ [RBRACE]) ++ suf
        /\ ~ In LBRACE pre /\ ~ In RBRACE suf
        /\ json_str text = LBRACE :: body ++ [RBRACE]).
Proof. exact (span_cases text). Qed.

Lemma lstrip_spec (s : str) :
  exists l, s = l ++ lstrip s /\ forallb isspace l = true
            /\ (forall c, hd_error (lstrip s) = Some c -> isspace c = false).
Proof.
  induction s as [|c r (l & Hs & Hl & Hh)].
  - exists []. repeat split. discriminate.
  - cbn [lstrip]. destruct (isspace c) eqn:Ec.
    + exists (c :: l). repeat split.
      * simpl. now rewrite <- Hs.
      * simpl. now rewrite Ec.
      * exact Hh.
    + exists []. repeat split. intros c' [= <-]. exact Ec.
Qed.

Lemma forallb_rev (f : char -> bool) (l : str) :
  forallb f (rev l) = forallb f l.
Proof.
  induction l as [|c l IH]; [reflexivity|].
  simpl. rewrite forallb_app, IH. simpl. rewrite andb_true_r. apply andb_comm.
Qed.

Lemma rstrip_spec (s : str) :
  exists r, s = rstrip s ++ r /\ forallb isspace r = true
            /\ (forall c, hd_error (rev (rstrip s)) = Some c -> isspace c = false).
Proof.
  unfold rstrip. destruct (lstrip_spec (rev s)) as (l & Hs & Hl & Hh).
  exists (rev l). repeat split.
  - rewrite <- rev_app_distr, <- Hs. symmetry. apply rev_involutive.
  - rewrite forallb_rev. exact Hl.
  - rewrite rev_involutive. exact Hh.
Qed.

(** [strip] removes whitespace at the two ends and nothing else. *)
Lemma strip_spec (s : str) :
  exists l r, s = l ++ strip s ++ r
              /\ forallb isspace l = true /\ forallb isspace r = true
              /\ (forall c, hd_error (strip s) = Some c -> isspace c = false)
              /\ (forall c, hd_error (rev (strip s)) = Some c -> isspace c = false).
Proof.
  unfold strip.
  destruct (lstrip_spec s) as (l & Hs & Hl & Hh).
  destruct (rstrip_spec (lstrip s)) as (r & Hs' & Hr & Hh').
  exists l, r. repeat split; try assumption.
  - rewrite <- Hs'. exact Hs.
  - intros c Hc. apply Hh. rewrite Hs'.
    destruct (rstrip (lstrip s)); [discriminate | exact Hc].
Qed.

Lemma lstrip_all_space (s : str) : forallb isspace s = true -> lstrip s = [].
Proof.
  induction s as [|c r IH]; [reflexivity|].
  simpl. intro H. apply andb_prop in H as [Hc Hr]. rewrite Hc. apply IH, Hr.
Qed.

Lemma all_space_no_brace (s : str) : forallb isspace s = true -> ~ In LBRACE s.
Proof.
  intros H Hin. rewrite forallb_forall in H. specialize (H _ Hin).
  discriminate H.
Qed.

(** X9. On the empty text, and on any text made of whitespace only, the
    interpreter returns the "Analysis Generated" record with the empty
    explanation. *)
Theorem blank_text_gives_empty_explanation (rt : runtime) (text : str) :
  forallb isspace text = true ->
  interpret rt text
  = Return (PyDict [(lit "label", PyStr (lit "Analysis Generated"));
                    (lit "explanation", PyStr [])]).
Proof.
  intro H.
  rewrite interpret_fallback
    by (apply span_found_false_iff, all_space_no_brace, H).
  unfold analysis_generated, strip. rewrite (lstrip_all_space text H).
  reflexivity.
Qed.

(** X10. In the "Analysis Generated" record the explanation is the text less
    the whitespace at its two ends: it neither begins nor ends with
    whitespace, and what was cut off on either side is whitespace only. *)
Theorem fallback_explanation_is_trimmed_text (rt : runtime) (text : str) :
  ~ In LBRACE text ->
  exists left_ws explanation right_ws,
    interpret rt text
    = Return (PyDict [(lit "label", PyStr (lit "Analysis Generated"));
                      (lit "explanation", PyStr explanation)])
    /\ text = left_ws ++ explanation ++ right_ws
    /\ forallb isspace left_ws = true /\ forallb isspace right_ws = true
    /\ (forall c, hd_error explanation = Some c -> isspace c = false)
    /\ (forall c, hd_error (rev explanation) = Some c -> isspace c = false).
Proof.
  intro H. destruct (strip_spec text) as (l & r & Hs & Hl & Hr & Hh & Ht).
  exists l, (strip text), r. repeat split; try assumption.
  apply interpret_fallback, span_found_false_iff, H.
Qed.

End SpanAndFallback.

Lemma span_is_first_open_to_last_close_witness :
  (json_str (lit "ok {'a': {}} done") = []
   /\ (rfind (lit "ok {'a': {}} done") RBRACE < find (lit "ok {'a': {}} done") LBRACE)%Z)
  \/ (exists pre body suf,
        lit "ok {'a': {}} done" = pre ++ (LBRACE :: body ++ [RBRACE]) ++ suf
        /\ ~ In LBRACE pre /\ ~ In RBRACE suf
        /\ json_str (lit "ok {'a': {}} done") = LBRACE :: body ++ [RBRACE]).
Proof.
  apply (span_is_first_open_to_last_close (lit "ok {'a': {}} done")).
  vm_compute. auto.
Defined.

Lemma blank_text_gives_empty_explanation_witness :
  interpret cpython_default [32%N; 10%N; 9%N; 160%N]
  = Return (PyDict [(lit "label", PyStr (lit "Analysis Generated"));
                    (lit "explanation", PyStr [])]).
Proof.
  apply (blank_text_gives_empty_explanation cpython_default [32%N; 10%N; 9%N; 160%N]).
  reflexivity.
Defined.

Lemma fallback_explanation_is_trimmed_text_witness :
  exists left_ws explanation right_ws,
    interpret cpython_default (lit "  Looks fine.  ")
    = Return (PyDict [(lit "label", PyStr (lit "Analysis Generated"));
                      (lit "explanation", PyStr explanation)])
    /\ lit "  Looks fine.  " = left_ws ++ explanation ++ right_ws
    /\ forallb isspace left_ws = true /\ forallb isspace right_ws = true
    /\ (forall c, hd_error explanation = Some c -> isspace c = false)
    /\ (forall c, hd_error (rev explanation) = Some c -> isspace c = false).
Proof.
  apply (fallback_explanation_is_trimmed_text cpython_default (lit "  Looks fine.  ")).
  vm_compute. intuition discriminate.
Defined.

(** ** The dictionary that comes back *)

Section ReturnedDict.

Lemma str_eqb_eq (a b : str) : str_eqb a b = true <-> a = b.
Proof.
  revert b. induction a as [|x a IH]; intros [|y b]; simpl;
    try (split; [discriminate | discriminate]); [tauto|].
  rewrite andb_true_iff, N.eqb_eq, IH. split.
  - intros [-> ->]. reflexivity.
  - intros [= -> ->]. auto.
Qed.

Lemma str_eqb_refl (a : str) : str_eqb a a = true.
Proof. now apply str_eqb_eq. Qed.

Lemma dict_set_keys (k : str) (v : pyobj) (d : list (str * pyobj)) (k' : str) :
  In k' (map fst (dict_set k v d)) <-> k' = k \/ In k' (map fst d).
Proof.
  induction d as [|[k0 v0] d IH]; simpl.
  - intuition.
  - destruct (str_eqb k k0) eqn:E; simpl.
    + apply str_eqb_eq in E. subst k0. intuition.
    + rewrite IH. intuition.
Qed.

Lemma dict_set_NoDup (k : str) (v : pyobj) (d : list (str * pyobj)) :
  NoDup (map fst d) -> NoDup (map fst (dict_set k v d)).
Proof.
  induction d as [|[k0 v0] d IH]; simpl; intro H.
  - constructor; [tauto | constructor].
  - inversion H as [|? ? Hni Hd]; subst.
    destruct (str_eqb k k0) eqn:E; simpl.
    + apply str_eqb_eq in E. subst k0. constructor; assumption.
    + constructor; [|apply IH, Hd].
      rewrite dict_set_keys. intros [->|Hin]; [|contradiction].
      rewrite str_eqb_refl in E. discriminate E.
Qed.

Lemma dict_of_pairs_NoDup (pairs : list (str * pyobj)) :
  NoDup (map fst (dict_of_pairs pairs)).
Proof.
  unfold dict_of_pairs.
  assert (H : forall d, NoDup (map fst d) ->
                        NoDup (map fst (fold_left
                                 (fun d kv => dict_set (fst kv) (snd kv) d) pairs d))).
  { induction pairs as [|[k v] pairs IH]; intros d Hd; [exact Hd|].
    simpl. apply IH, dict_set_NoDup, Hd. }
  apply H. constructor.
Qed.

Lemma object_loop_dict_of_pairs (scan : str -> result (pyobj * str)) (fuel : nat) :
  forall pairs s v r,
    Json.object_loop scan fuel pairs s = Return (v, r) ->
    exists ps, v = PyDict (dict_of_pairs ps).
Proof.
  induction fuel as [|fuel IH]; intros pairs s v r H; [discriminate|].
  cbn [Json.object_loop] in H.
  destruct (Json.scanstring s []) as [[key s1]|e|]; run; try discriminate.
  destruct (Json.skip_ws s1) as [|c s2]; [discriminate|].
  destruct (N.eqb c (code ":")); [|discriminate].
  destruct (scan (Json.skip_ws s2)) as [[value s3]|[]|]; run; try discriminate.
  destruct (Json.skip_ws s3) as [|d s4]; [discriminate|].
  destruct (N.eqb d (code "}")); [injection H as <- _; eexists; reflexivity|].
  destruct (N.eqb d (code ",")); [|discriminate].
  destruct (Json.skip_ws s4) as [|q s5]; [discriminate|].
  destruct (N.eqb q DQUOTE); [|discriminate].
  eapply IH, H.
Qed.

Lemma loads_open_brace_dict_of_pairs (rt : runtime) (r : str) (v : pyobj) :
  Json.loads rt (LBRACE :: r) = Return v ->
  exists ps, v = PyDict (dict_of_pairs ps).
Proof.
  unfold Json.loads, Json.decode, Json.raw_decode.
  change (N.eqb LBRACE Json.BOM) with false. cbv iota.
  change (Json.skip_ws (LBRACE :: r)) with (LBRACE :: r).
  destruct (recursion_limit rt) as [|depth]; [discriminate|].
  cbn [Json.scan_once].
  change (N.eqb LBRACE DQUOTE) with false.
  change (N.eqb LBRACE (code "{")) with true. cbv iota.
  unfold Json.JSONObject.
  destruct (Json.skip_ws r) as [|c s1]; [discriminate|].
  destruct (N.eqb c (code "}")).
  - cbn [try_except bind]. destruct (Json.skip_ws s1); [|discriminate].
    intros [= <-]. exists []. reflexivity.
  - destruct (N.eqb c DQUOTE); [|discriminate].
    destruct (Json.object_loop _ _ _ _) as [[v' r']|[]|] eqn:Ho;
      run; try discriminate.
    apply object_loop_dict_of_pairs in Ho.
    destruct (Json.skip_ws r'); [|discriminate].
    intros [= <-]. exact Ho.
Qed.

(** X11. The dictionary the interpreter returns never has a key twice. *)
Theorem returned_keys_are_distinct (rt : runtime) (text : str)
    (d : list (str * pyobj)) :
  interpret rt text = Return (PyDict d) -> NoDup (map fst d).
Proof.
  assert (Hrec : forall label explanation,
             Return (two_fields label explanation) = Return (PyDict d) ->
             NoDup (map fst d)).
  { intros label explanation [= <-]. simpl.
    constructor; [|constructor; [tauto | constructor]].
    intros [E|[]]. vm_compute in E. discriminate E. }
  unfold interpret. destruct (span_found text) eqn:Hs.
  - apply span_found_iff in Hs.
    destruct (slice_at_find LBRACE text (end_idx text) Hs) as [E|[r E]];
      fold (start_idx text) in E; fold (json_str text) in E; rewrite E.
    + rewrite loads_empty. intro H. exact (Hrec _ _ H).
    + destruct (Json.loads rt (LBRACE :: r)) as [v'|[]|] eqn:Hl;
        cbn [try_except exn_eqb]; try discriminate.
      * intros [= ->].
        destruct (loads_open_brace_dict_of_pairs rt r Hl) as [ps [= ->]].
        apply dict_of_pairs_NoDup.
      * intro H. exact (Hrec _ _ H).
  - intro H. exact (Hrec _ _ H).
Qed.

Lemma dict_get_set (k : str) (v : pyobj) (d : list (str * pyobj)) (k' : str) :
  dict_get (dict_set k v d) k' = if str_eqb k' k then Some v else dict_get d k'.
Proof.
  induction d as [|[k0 v0] d IH]; simpl.
  - destruct (str_eqb k' k); reflexivity.
  - destruct (str_eqb k k0) eqn:E; simpl.
    + apply str_eqb_eq in E. subst k0. destruct (str_eqb k' k); reflexivity.
    + rewrite IH. destruct (str_eqb k' k0) eqn:E0; [|reflexivity].
      apply str_eqb_eq in E0. subst k0.
      destruct (str_eqb k' k) eqn:E1; [|reflexivity].
      apply str_eqb_eq in E1. subst k'. rewrite str_eqb_refl in E. discriminate E.
Qed.

Lemma fold_dict_set_get_other (pairs : list (str * pyobj)) (k : str) :
  ~ In k (map fst pairs) ->
  forall d,
    dict_get (fold_left (fun d kv => dict_set (fst kv) (snd kv) d) pairs d) k
    = dict_get d k.
Proof.
  induction pairs as [|[k0 v0] pairs IH]; intros Hni d; [reflexivity|].
  simpl. rewrite IH by (intro; apply Hni; now right).
  rewrite dict_get_set.
  destruct (str_eqb k k0) eqn:E; [|reflexivity].
  apply str_eqb_eq in E. exfalso. apply Hni. left. simpl. congruence.
Qed.

(** In [dict(pairs)] a key has the value of its last pair. *)
Lemma dict_of_pairs_last_wins (before after : list (str * pyobj))
    (k : str) (v : pyobj) :
  ~ In k (map fst after) ->
  dict_get (dict_of_pairs (before ++ (k, v) :: after)) k = Some v.
Proof.
  intro Hni. unfold dict_of_pairs. rewrite fold_left_app. simpl.
  rewrite fold_dict_set_get_other by exact Hni.
  rewrite dict_get_set, str_eqb_refl. reflexivity.
Qed.

Lemma object_loop_members (rt : runtime) (d : nat) (rest : str) :
  forall more kv acc fuel,
    List.length more < fuel ->
    Json.object_loop (Json.scan_once rt d) fuel acc
      (members_after_quote kv more rest)
    = Return (PyDict (dict_of_pairs (acc ++ map member_value (kv :: more))), rest).
Proof.
  induction more as [|next more IH]; intros kv acc [|fuel] Hf; try (simpl in Hf; lia).
  - cbn [members_after_quote].
    apply object_loop_last
      with (s1 := lit ": " ++ DQUOTE :: escape (snd kv) ++ DQUOTE :: RBRACE :: rest)
           (s2 := lit " " ++ DQUOTE :: escape (snd kv) ++ DQUOTE :: RBRACE :: rest)
           (s3 := RBRACE :: rest).
    + apply scanstring_escape.
    + reflexivity.
    + apply scan_once_escaped_string.
    + reflexivity.
  - cbn [members_after_quote].
    rewrite object_loop_more
      with (key := fst kv)
           (s1 := lit ": " ++ DQUOTE :: escape (snd kv) ++ DQUOTE
                  :: lit ", " ++ DQUOTE :: members_after_quote next more rest)
           (s2 := lit " " ++ DQUOTE :: escape (snd kv) ++ DQUOTE
                  :: lit ", " ++ DQUOTE :: members_after_quote next more rest)
           (value := PyStr (snd kv))
           (s3 := lit ", " ++ DQUOTE :: members_after_quote next more rest)
           (s4 := lit " " ++ DQUOTE :: members_after_quote next more rest)
           (s5 := members_after_quote next more rest);
      try reflexivity.
    + rewrite IH by (simpl in Hf; lia).
      rewrite <- app_assoc. reflexivity.
    + apply scanstring_escape.
    + apply scan_once_escaped_string.
Qed.

Lemma render_members_shape (rest : str) :
  forall more kv,
    join (lit ", ") (map render_member (kv :: more)) ++ RBRACE :: rest
    = DQUOTE :: members_after_quote kv more rest.
Proof.
  induction more as [|next more IH]; intro kv.
  - cbn [map join members_after_quote]. unfold render_member.
    simpl. rewrite <- !app_assoc. simpl. rewrite <- !app_assoc. reflexivity.
  - change (map render_member (kv :: next :: more))
      with (render_member kv :: map render_member (next :: more)).
    rewrite join_cons by discriminate.
    rewrite <- !app_assoc, IH.
    cbn [members_after_quote]. unfold render_member.
    simpl. rewrite <- !app_assoc. simpl. rewrite <- !app_assoc. reflexivity.
Qed.

Lemma loads_flat_object (rt : runtime) (members : list (str * str)) :
  1 <= recursion_limit rt ->
  Json.loads rt (render_flat_object members)
  = Return (PyDict (dict_of_pairs (map member_value members))).
Proof.
  intro Hlim. unfold Json.loads, Json.decode, Json.raw_decode.
  destruct (recursion_limit rt) as [|depth]; [lia|].
  destruct members as [|kv more]; [reflexivity|].
  unfold render_flat_object. rewrite render_members_shape.
  set (x := members_after_quote kv more []).
  change (N.eqb LBRACE Json.BOM) with false. cbv iota.
  change (Json.skip_ws (LBRACE :: DQUOTE :: x)) with (LBRACE :: DQUOTE :: x).
  change (Json.scan_once rt (S depth) (LBRACE :: DQUOTE :: x))
    with (Json.object_loop (Json.scan_once rt depth) (S (List.length x)) [] x).
  subst x. rewrite object_loop_members.
  - reflexivity.
  - clear. revert kv. induction more as [|next more IH]; intro kv; [simpl; lia|].
    specialize (IH next). cbn [members_after_quote].
    change (lit ": ") with [58%N; 32%N]. change (lit ", ") with [44%N; 32%N].
    repeat (rewrite length_app || cbn [List.length app]).
    cbn [List.length] in IH. lia.
Qed.

Lemma flat_object_interpreted (rt : runtime) (pre suf : str)
    (members : list (str * str)) :
  1 <= recursion_limit rt -> ~ In LBRACE pre -> ~ In RBRACE suf ->
  interpret rt (pre ++ render_flat_object members ++ suf)
  = Return (PyDict (dict_of_pairs (map member_value members))).
Proof.
  intros Hlim Hpre Hsuf. rewrite interpret_span.
  - unfold render_flat_object at 1. rewrite json_str_framed by assumption.
    fold (render_flat_object members).
    rewrite loads_flat_object by exact Hlim. reflexivity.
  - apply span_found_iff, in_or_app. right. left. reflexivity.
Qed.

(** X12. An object of members with text values, written in the layout the
    prompt asks for and framed by text without a [{] before and a [}] after,
    is returned with every key and value as they were, whatever characters
    they contain (quotes, backslashes, braces, control characters). *)
Theorem flat_object_round_trip (rt : runtime) (pre suf : str)
    (members : list (str * str)) :
  1 <= recursion_limit rt -> ~ In LBRACE pre -> ~ In RBRACE suf ->
  interpret rt (pre ++ render_flat_object members ++ suf)
  = Return (PyDict (dict_of_pairs
                      (map (fun kv => (fst kv, PyStr (snd kv))) members))).
Proof. exact (flat_object_interpreted rt pre suf members). Qed.

(** X13. When the generated object repeats a key, the value of its last
    occurrence is the one returned under that key. *)
Theorem repeated_key_last_value_wins (rt : runtime) (pre suf : str)
    (before after : list (str * str)) (k v : str) :
  1 <= recursion_limit rt -> ~ In LBRACE pre -> ~ In RBRACE suf ->
  ~ In k (map fst after) ->
  exists d,
    interpret rt (pre ++ render_flat_object (before ++ (k, v) :: after) ++ suf)
    = Return (PyDict d)
    /\ dict_get d k = Some (PyStr v).
Proof.
  intros Hlim Hpre Hsuf Hni. eexists. split.
  - apply flat_object_interpreted; assumption.
  - rewrite map_app. cbn [map]. apply dict_of_pairs_last_wins.
    rewrite map_map. exact Hni.
Qed.

End ReturnedDict.

Lemma returned_keys_are_distinct_witness :
  NoDup (map fst [(lit "label", PyStr (lit "B")); (lit "note", PyStr (lit "n"))]).
Proof.
  apply (@returned_keys_are_distinct cpython_default
           (lit "{'label': 'A', 'note': 'n', 'label': 'B'}")).
  vm_compute. reflexivity.
Defined.

Lemma flat_object_round_trip_witness :
  interpret cpython_default
    (lit "Result: " ++ render_flat_object
                         [(lit "label", lit "Major {Drift}");
                          (lit "explanation", lit "say 'why'" ++ [NL; 92%N])]
     ++ lit " (end)")
  = Return (PyDict [(lit "label", PyStr (lit "Major {Drift}"));
                    (lit "explanation", PyStr (lit "say 'why'" ++ [NL; 92%N]))]).
Proof.
  apply (@flat_object_round_trip cpython_default (lit "Result: ") (lit " (end)")
           [(lit "label", lit "Major {Drift}");
            (lit "explanation", lit "say 'why'" ++ [NL; 92%N])]).
  - simpl. lia.
  - vm_compute. intuition discriminate.
  - vm_compute. intuition discriminate.
Defined.

Lemma repeated_key_last_value_wins_witness :
  exists d,
    interpret cpython_default
      (lit "{'label': 'A', 'note': 'n', 'label': 'B'}")
    = Return (PyDict d)
    /\ dict_get d (lit "label") = Some (PyStr (lit "B")).
Proof.
  apply (@repeated_key_last_value_wins cpython_default [] []
           [(lit "label", lit "A"); (lit "note", lit "n")] []
           (lit "label") (lit "B")).
  - simpl. lia.
  - simpl. tauto.
  - simpl. tauto.
  - simpl. tauto.
Defined.

(** ** The fallback record comes from the fallback branch only

    A text that the decoder reads out of a span is shorter than the span, and
    the span is no longer than the stripped text: so the record of the
    fallback branch is never what a parse attempt gives. *)

Section FallbackOnly.

Lemma scanstring_length (s : str) :
  forall chunks, string_length_spec s chunks (Json.scanstring s chunks).
Proof.
  remember (List.length s) as n eqn:Hn.
  assert (Hle : List.length s <= n) by lia. clear Hn.
  revert s Hle. induction n as [|n IH]; intros s Hle chunks.
  - destruct s; [exact I | simpl in Hle; lia].
  - destruct s as [|c rest]; [exact I|].
    cbn [Json.scanstring].
    repeat match goal with
           | |- context [match ?x with _ => _ end] => destruct x eqn:?
           | |- context [if ?b then _ else _] => destruct b eqn:?
           end;
      try exact I;
      try (cbn [string_length_spec]; rewrite length_rev;
           cbn [List.length]; lia);
      match goal with
      | |- string_length_spec _ _ (Json.scanstring ?r ?a) =>
          let H := fresh "H" in
          assert (H : string_length_spec r a (Json.scanstring r a))
            by (apply IH; cbn [List.length] in *; lia);
          destruct (Json.scanstring r a) as [[? ?]|?|];
          cbn [string_length_spec List.length] in *; try exact I; lia
      end.
Qed.

Lemma short_text_le (n m : nat) (v : pyobj) :
  n <= m -> short_text n v -> short_text m v.
Proof. destruct v; cbn [short_text]; try tauto. lia. Qed.

Lemma scan_number_short (rt : runtime) (s : str) (v : pyobj) (r : str) (n : nat) :
  Json.scan_number rt s = Return (v, r) -> short_text n v.
Proof.
  unfold Json.scan_number.
  destruct (Json.match_number s) as [m|].
  - destruct (Json.nm_frac m), (Json.nm_exp m);
      try (intros [= <- _]; exact I).
    unfold Json.parse_int. destruct (negb _ && _); cbn [bind];
      [discriminate | intros [= <- _]; exact I].
  - repeat match goal with
           | |- context [Json.strip_prefix ?p s] =>
               destruct (Json.strip_prefix p s); [intros [= <- _]; exact I|]
           end.
    discriminate.
Qed.

Lemma array_loop_list (scan : str -> result (pyobj * str)) (fuel : nat) :
  forall values s v r,
    Json.array_loop scan fuel values s = Return (v, r) ->
    exists items, v = PyList items.
Proof.
  induction fuel as [|fuel IH]; intros values s v r H; [discriminate|].
  cbn [Json.array_loop] in H.
  destruct (scan s) as [[value s1]|[]|]; run; try discriminate.
  destruct (Json.skip_ws s1) as [|c s2]; [discriminate|].
  destruct (N.eqb c (code "]")); [injection H as <- _; eexists; reflexivity|].
  destruct (N.eqb c (code ",")); [|discriminate].
  eapply IH, H.
Qed.

Lemma JSONArray_list (scan : str -> result (pyobj * str)) (s : str) v r :
  Json.JSONArray scan s = Return (v, r) -> exists items, v = PyList items.
Proof.
  unfold Json.JSONArray. destruct (Json.skip_ws s) as [|c s1].
  - apply array_loop_list.
  - destruct (N.eqb c (code "]")); [intros [= <- _]; eexists; reflexivity|].
    apply array_loop_list.
Qed.

(** A text that the scanner returns is shorter than what it scanned. *)
Lemma scan_once_short (rt : runtime) (depth : nat) (s : str) (v : pyobj)
    (r : str) :
  Json.scan_once rt depth s = Return (v, r) -> short_text (List.length s) v.
Proof.
  rewrite scan_once_unfold. destruct s as [|c s']; [discriminate|].
  destruct (N.eqb c DQUOTE).
  { pose proof (scanstring_length s' []) as H.
    destruct (Json.scanstring s' []) as [[t rest]|e|]; cbn [bind];
      try discriminate.
    intros [= <- _]. cbn [string_length_spec short_text List.length] in *. lia. }
  destruct (N.eqb c (code "{")).
  { destruct depth; [discriminate|].
    intro H. apply JSONObject_dict in H as [items ->]. exact I. }
  destruct (N.eqb c (code "[")).
  { destruct depth; [discriminate|].
    intro H. apply JSONArray_list in H as [items ->]. exact I. }
  destruct (Json.strip_prefix (lit "null") (c :: s'));
    [intros [= <- _]; exact I|].
  destruct (Json.strip_prefix (lit "true") (c :: s'));
    [intros [= <- _]; exact I|].
  destruct (Json.strip_prefix (lit "false") (c :: s'));
    [intros [= <- _]; exact I|].
  apply scan_number_short.
Qed.

Lemma dict_set_In (k : str) (v : pyobj) (d : list (str * pyobj))
    (kv : str * pyobj) :
  In kv (dict_set k v d) -> kv = (k, v) \/ In kv d.
Proof.
  induction d as [|[k' v'] d IH]; cbn [dict_set].
  - intros [<-|[]]. now left.
  - destruct (str_eqb k k').
    + intros [<-|H]; [now left | right; now right].
    + intros [<-|H]; [right; now left|].
      destruct (IH H) as [->|Hin]; [now left | right; now right].
Qed.

Lemma dict_of_pairs_In (pairs : list (str * pyobj)) (kv : str * pyobj) :
  In kv (dict_of_pairs pairs) -> In kv pairs.
Proof.
  unfold dict_of_pairs.
  assert (G : forall d0,
             In kv (fold_left (fun d p => dict_set (fst p) (snd p) d) pairs d0) ->
             In kv d0 \/ In kv pairs).
  { induction pairs as [|[k v] pairs IH]; intros d0 H; [now left|].
    cbn [fold_left fst snd] in H. destruct (IH _ H) as [Hd|Hp].
    - apply dict_set_In in Hd as [->|Hd]; [right; now left | now left].
    - right. now right. }
  intro H. destruct (G [] H) as [[]|Hp]. exact Hp.
Qed.

Section Members.

Variable scan : str -> result (pyobj * str).
Variable rt : runtime.
Variable depth : nat.
Hypothesis scan_ok : forall s, scan_spec rt depth s (scan s).
Hypothesis scan_short :
  forall s v r, scan s = Return (v, r) -> short_text (List.length s) v.

Lemma object_loop_short (n fuel : nat) :
  forall pairs s d r,
    List.length s <= n ->
    (forall kv, In kv pairs -> short_text n (snd kv)) ->
    Json.object_loop scan fuel pairs s = Return (PyDict d, r) ->
    forall kv, In kv d -> short_text n (snd kv).
Proof.
  induction fuel as [|fuel IH]; intros pairs s d r Hn Hpairs H; [discriminate|].
  cbn [Json.object_loop] in H.
  pose proof (scanstring_spec s []) as Hk.
  destruct (Json.scanstring s []) as [[key s1]|e|]; cbn [string_spec] in Hk; run;
    try discriminate.
  pose proof (skip_ws_within s1) as Hw1.
  destruct (Json.skip_ws s1) as [|c s2]; [discriminate|].
  destruct (N.eqb c (code ":")); [|discriminate].
  pose proof (skip_ws_within s2) as Hw2.
  pose proof (scan_ok (Json.skip_ws s2)) as Hs.
  pose proof scan_short as Hv. specialize (Hv (Json.skip_ws s2)).
  destruct (scan (Json.skip_ws s2)) as [[value s3]|[]|]; run; try discriminate.
  specialize (Hv value s3 eq_refl).
  assert (Hpairs' : forall kv, In kv (pairs ++ [(key, value)]) ->
                               short_text n (snd kv)).
  { intros kv Hin. apply in_app_or in Hin as [Hin|[<-|[]]]; [now apply Hpairs|].
    cbn [snd]. apply (short_text_le (n := List.length (Json.skip_ws s2)));
      [measures | exact Hv]. }
  pose proof (skip_ws_within s3) as Hw3.
  destruct (Json.skip_ws s3) as [|c' s4]; [discriminate|].
  destruct (N.eqb c' (code "}")).
  { injection H as <- _. intros kv Hin. apply Hpairs', dict_of_pairs_In, Hin. }
  destruct (N.eqb c' (code ",")); [|discriminate].
  pose proof (skip_ws_within s4) as Hw4.
  destruct (Json.skip_ws s4) as [|q s5]; [discriminate|].
  destruct (N.eqb q DQUOTE); [|discriminate].
  refine (IH _ _ _ _ _ Hpairs' H). measures.
Qed.

End Members.

(** The texts of a decoded object are shorter than the object's text. *)
Lemma loads_object_texts_short (rt : runtime) (r : str)
    (d : list (str * pyobj)) :
  Json.loads rt (LBRACE :: r) = Return (PyDict d) ->
  forall kv, In kv d -> short_text (List.length r) (snd kv).
Proof.
  unfold Json.loads, Json.decode, Json.raw_decode.
  change (N.eqb LBRACE Json.BOM) with false. cbv iota.
  change (Json.skip_ws (LBRACE :: r)) with (LBRACE :: r).
  destruct (recursion_limit rt) as [|depth]; [discriminate|].
  cbn [Json.scan_once].
  change (N.eqb LBRACE DQUOTE) with false.
  change (N.eqb LBRACE (code "{")) with true. cbv iota.
  unfold Json.JSONObject.
  pose proof (skip_ws_within r) as Hw.
  destruct (Json.skip_ws r) as [|c s1]; [discriminate|].
  destruct (N.eqb c (code "}")).
  - cbn [try_except bind]. destruct (Json.skip_ws s1); [|discriminate].
    intros [= <-] kv [].
  - destruct (N.eqb c DQUOTE); [|discriminate].
    destruct (Json.object_loop _ _ _ _) as [[v' r']|[]|] eqn:Ho;
      run; try discriminate.
    destruct (Json.skip_ws r'); [|discriminate].
    intros [= ->].
    refine (@object_loop_short (Json.scan_once rt depth) rt depth
              (scan_once_spec rt depth) (@scan_once_short rt depth)
              (List.length r) _ _ _ _ _ _
              (fun kv (H : In kv []) => match H with end) Ho).
    measures.
Qed.

Lemma lstrip_keeps (pre rest : str) (a : char) :
  isspace a = false ->
  exists pre', lstrip (pre ++ a :: rest) = pre' ++ a :: rest.
Proof.
  intro Ha. induction pre as [|c pre [pre' IH]].
  - exists []. cbn [app lstrip]. now rewrite Ha.
  - cbn [app lstrip]. destruct (isspace c).
    + exists pre'. exact IH.
    + exists (c :: pre). reflexivity.
Qed.

(** Stripping a text leaves at least what lies between two characters that
    are no whitespace. *)
Lemma strip_keeps_span (pre mid suf : str) (a z : char) :
  isspace a = false -> isspace z = false ->
  List.length (a :: mid ++ [z])
  <= List.length (strip (pre ++ (a :: mid ++ [z]) ++ suf)).
Proof.
  intros Ha Hz. unfold strip, rstrip.
  replace (pre ++ (a :: mid ++ [z]) ++ suf)
    with (pre ++ a :: (mid ++ z :: suf))
    by (cbn [app]; rewrite <- app_assoc; reflexivity).
  destruct (lstrip_keeps pre (mid ++ z :: suf) a Ha) as [pre' ->].
  set (kept := pre' ++ a :: mid).
  assert (E : rev (pre' ++ a :: mid ++ z :: suf) = rev suf ++ z :: rev kept).
  { change (pre' ++ a :: mid ++ z :: suf) with (pre' ++ (a :: mid) ++ z :: suf).
    rewrite app_assoc. fold kept. rewrite rev_app_distr.
    change (rev (z :: suf)) with (rev suf ++ [z]).
    rewrite <- app_assoc. reflexivity. }
  rewrite E.
  destruct (lstrip_keeps (rev suf) (rev kept) z Hz) as [suf' ->].
  rewrite length_rev, length_app. cbn [List.length]. rewrite length_rev.
  unfold kept. rewrite !length_app. cbn [List.length]. lia.
Qed.

(** With a [{] in the text, the result is never the record of the fallback
    branch. *)
Lemma open_brace_never_fallback (rt : runtime) (text : str) :
  In LBRACE text -> interpret rt text <> Return (analysis_generated text).
Proof.
  intro Hin. rewrite interpret_span by (apply span_found_iff, Hin).
  assert (Hne : Return (parsing_error text) <> Return (analysis_generated text)).
  { unfold parsing_error, analysis_generated, two_fields. intro H.
    injection H as H _. discriminate H. }
  destruct (span_cases text Hin)
    as [[He _]|(pre & body & suf & Htext & _ & _ & Hspan)].
  { rewrite He, loads_empty. exact Hne. }
  rewrite Hspan.
  destruct (Json.loads rt (LBRACE :: body ++ [RBRACE])) as [v|[]|] eqn:Hl;
    cbn [try_except exn_eqb]; try discriminate; try exact Hne.
  intros [= ->]. unfold analysis_generated, two_fields in Hl.
  pose proof (loads_object_texts_short _ _ Hl
                (lit "explanation", PyStr (strip text))
                (or_intror (or_introl eq_refl))) as Hshort.
  cbn [short_text snd] in Hshort.
  pose proof (@strip_keeps_span pre body suf LBRACE RBRACE eq_refl eq_refl) as Hk.
  rewrite <- Htext in Hk. cbn [List.length] in Hk. lia.
Qed.

(** C3. The second test of the guard never fails, so the fallback branch is
    taken exactly when the text has no [{]: such a text gives the "Analysis
    Generated" record with the stripped text, and no text with a [{] does;
    a text with a [{] gives what the parse attempt on its span gives, the
    decoded value or the "Parsing Error" record of the handler.  When the
    last [}] of such a text is missing or comes before the first [{], the
    span is empty, the decoder rejects it, and the result is the "Parsing
    Error" record. *)
Theorem fallback_iff_no_open_brace (rt : runtime) (text : str) :
  (end_idx text <> -1)%Z
  /\ (span_found text = false <-> ~ In LBRACE text)
  /\ (interpret rt text
      = Return (PyDict [(lit "label", PyStr (lit "Analysis Generated"));
                        (lit "explanation", PyStr (strip text))])
      <-> ~ In LBRACE text)
  /\ (In LBRACE text ->
      interpret rt text
      = try_except (Json.loads rt (json_str text)) JSONDecodeError
          (Return (PyDict
             [(lit "label", PyStr (lit "Parsing Error"));
              (lit "explanation",
               PyStr (lit "Could not parse model output as JSON. Raw output: "
                      ++ text))])))
  /\ (In LBRACE text -> (rfind text RBRACE < find text LBRACE)%Z ->
      json_str text = []
      /\ interpret rt text
         = Return (PyDict
             [(lit "label", PyStr (lit "Parsing Error"));
              (lit "explanation",
               PyStr (lit "Could not parse model output as JSON. Raw output: "
                      ++ text))])).
Proof.
  split; [pose proof (end_idx_nonneg text); lia|].
  split; [apply span_found_false_iff|].
  split.
  { split.
    - intros H Hin. exact (open_brace_never_fallback rt Hin H).
    - intro H. apply interpret_fallback, span_found_false_iff, H. }
  split; [intro H; apply interpret_span, span_found_iff, H|].
  intros Hin Hlt. pose proof (json_str_empty text Hin Hlt) as He.
  split; [exact He|].
  rewrite interpret_span by (apply span_found_iff, Hin).
  rewrite He, loads_empty. reflexivity.
Qed.

Lemma fallback_iff_no_open_brace_witness :
  interpret cpython_default (lit "no brace }")
  = Return (PyDict [(lit "label", PyStr (lit "Analysis Generated"));
                    (lit "explanation", PyStr (lit "no brace }"))])
  /\ (json_str (lit "} {") = []
      /\ interpret cpython_default (lit "} {")
         = Return (PyDict
             [(lit "label", PyStr (lit "Parsing Error"));
              (lit "explanation",
               PyStr (lit "Could not parse model output as JSON. Raw output: } {"))])).
Proof.
  split.
  - apply (proj2 (proj1 (proj2 (proj2
             (fallback_iff_no_open_brace cpython_default (lit "no brace }")))))).
    vm_compute. intuition discriminate.
  - apply (proj2 (proj2 (proj2 (proj2
             (fallback_iff_no_open_brace cpython_default (lit "} {")))))).
    + vm_compute. auto.
    + vm_compute. reflexivity.
Defined.

End FallbackOnly.

(** ** What the prompt does with its metrics, and with itself *)

Section PromptFacts.

Lemma scan_once_quoted (rt : runtime) (depth : nat) (r : str) :
  Json.scan_once rt depth (DQUOTE :: r)
  = bind (Json.scanstring r [])
      (fun x => let (text, rest) := x in Return (PyStr text, rest)).
Proof. rewrite scan_once_unfold. reflexivity. Qed.

(** The example object of the prompt is itself a JSON document. *)
Lemma loads_prompt_example (rt : runtime) :
  1 <= recursion_limit rt ->
  Json.loads rt prompt_example
  = Return (two_fields placeholder_label placeholder_explanation).
Proof.
  intro Hlim. unfold Json.loads, Json.decode, Json.raw_decode.
  destruct (recursion_limit rt) as [|depth]; [lia|].
  set (r := tl (Json.skip_ws (tl prompt_example))).
  change (match prompt_example with
          | [] => Json.decode rt prompt_example
          | c :: _ => if N.eqb c Json.BOM then Raise JSONDecodeError
                      else Json.decode rt prompt_example
          end) with (Json.decode rt prompt_example).
  change (Json.skip_ws prompt_example) with prompt_example.
  change (Json.scan_once rt (S depth) prompt_example)
    with (Json.object_loop (Json.scan_once rt depth) (S (List.length r)) [] r).
  set (s1 := skipn 6 r).
  set (s3 := skipn (2 + List.length placeholder_label) (Json.skip_ws (tl s1))).
  set (s5 := tl (Json.skip_ws (tl (Json.skip_ws s3)))).
  rewrite object_loop_more
    with (key := lit "label") (s1 := s1) (s2 := tl s1)
         (value := PyStr placeholder_label) (s3 := s3)
         (s4 := tl (Json.skip_ws s3)) (s5 := s5);
    [ | vm_compute; reflexivity | vm_compute; reflexivity
      | change (Json.skip_ws (tl s1)) with (DQUOTE :: tl (Json.skip_ws (tl s1)));
        rewrite scan_once_quoted; vm_compute; reflexivity
      | vm_compute; reflexivity | vm_compute; reflexivity ].
  change (List.length r) with (S (List.length (tl r))).
  set (t1 := skipn 12 s5).
  set (t3 := skipn (2 + List.length placeholder_explanation) (Json.skip_ws (tl t1))).
  rewrite object_loop_last
    with (key := lit "explanation") (s1 := t1) (s2 := tl t1)
         (value := PyStr placeholder_explanation) (s3 := t3)
         (s4 := tl (Json.skip_ws t3));
    [ reflexivity | vm_compute; reflexivity | vm_compute; reflexivity
      | change (Json.skip_ws (tl t1)) with (DQUOTE :: tl (Json.skip_ws (tl t1)));
        rewrite scan_once_quoted; vm_compute; reflexivity
      | vm_compute; reflexivity ].
Qed.

Lemma prompt_frames_example (block : str) :
  exists pre suf,
    prompt_of block = pre ++ prompt_example ++ suf
    /\ (~ In LBRACE block -> ~ In LBRACE pre)
    /\ ~ In RBRACE suf.
Proof.
  set (tail_pre := [NL] ++ indent ++ [NL] ++ indent
                   ++ lit "Provide your analysis in the following JSON format:"
                   ++ [NL] ++ indent).
  set (suf := [NL] ++ indent ++ [NL] ++ indent ++ lit "Analysis:" ++ [NL] ++ indent).
  exists (prompt_head ++ block ++ tail_pre), suf.
  split; [|split].
  - unfold prompt_of.
    change prompt_tail with (tail_pre ++ prompt_example ++ suf).
    rewrite <- !app_assoc. reflexivity.
  - intros Hm Hin. apply in_app_or in Hin as [Hin|Hin].
    + vm_compute in Hin. intuition discriminate.
    + apply in_app_or in Hin as [Hin|Hin]; [exact (Hm Hin)|].
      vm_compute in Hin. intuition discriminate.
  - vm_compute. intuition discriminate.
Qed.

(** X14. If the metrics are rendered, their block has no [{], and what comes
    back from the pipeline is the prompt itself, the interpreter takes the
    example object of the prompt for the answer: the result carries the
    placeholder label and explanation. *)
Theorem echoed_prompt_gives_placeholders (rt : runtime) (metrics : metrics_dict)
    (block : str) :
  1 <= recursion_limit rt ->
  metrics_str rt metrics = Return block ->
  ~ In LBRACE block ->
  analyze (fun prompt_text => prompt_text) rt metrics
  = Return (PyDict
      [(lit "label",
        PyStr (lit "Status Label (e.g., No Drift, Major Drift, Critical Failure)"));
       (lit "explanation",
        PyStr (lit "Detailed explanation of why you assigned this label."))]).
Proof.
  intros Hlim Hblock Hm. unfold analyze, prompt. rewrite Hblock. cbn [bind].
  destruct (prompt_frames_example block) as (pre & suf & E & Hpre & Hsuf).
  rewrite E. rewrite interpret_span.
  - set (body := removelast (tl prompt_example)).
    change prompt_example with (LBRACE :: body ++ [RBRACE]) at 1.
    rewrite json_str_framed by auto.
    change (LBRACE :: body ++ [RBRACE]) with prompt_example.
    rewrite loads_prompt_example by exact Hlim. reflexivity.
  - apply span_found_iff, in_or_app. right. left. reflexivity.
Qed.

(** X15. Names and values go into the metrics block as they are: a text
    value that ends with a newline and the rendered line of an entry cannot
    be told from that entry following the value, in the block and in the
    prompt (and where the entry cannot be rendered, neither side is). *)
Theorem metric_text_is_not_escaped (rt : runtime) (name value : str)
    (entry : str * metric_value) (others : metrics_dict) :
  (line <- metric_line rt entry ;;
   metrics_str rt ((name, MText (value ++ [NL] ++ line)) :: others))
  = metrics_str rt ((name, MText value) :: entry :: others)
  /\ (line <- metric_line rt entry ;;
      prompt rt ((name, MText (value ++ [NL] ++ line)) :: others))
     = prompt rt ((name, MText value) :: entry :: others).
Proof.
  assert (E : (line <- metric_line rt entry ;;
               metrics_str rt ((name, MText (value ++ [NL] ++ line)) :: others))
              = metrics_str rt ((name, MText value) :: entry :: others)).
  { unfold metrics_str. cbn [metric_lines].
    change (metric_line rt (name, MText value))
      with (Return (A := str) (lit "- " ++ name ++ lit ": " ++ value)).
    cbn [bind].
    destruct (metric_line rt entry) as [line| |]; cbn [bind]; try reflexivity.
    change (metric_line rt (name, MText (value ++ [NL] ++ line)))
      with (Return (A := str)
              (lit "- " ++ name ++ lit ": " ++ value ++ [NL] ++ line)).
    cbn [bind].
    destruct (metric_lines rt others) as [lines| |]; cbn [bind];
      try reflexivity.
    rewrite !join_cons_sep. cbn [sep_if_any].
    rewrite <- !app_assoc. reflexivity. }
  split; [exact E|]. unfold prompt. rewrite <- E.
  destruct (metric_line rt entry) as [line| |]; reflexivity.
Qed.

Lemma string_of_uint_chars (d : Decimal.uint) (c : char) :
  In c (of_string (NilEmpty.string_of_uint d)) -> (48 <= c <= 57)%N.
Proof.
  induction d; simpl; try tauto;
    (intros [<-|H]; [vm_compute; split; discriminate | exact (IHd H)]).
Qed.

(** The decimal text of an [int] is an optional minus sign and digits. *)
Lemma int_repr_chars (z : Z) (c : char) :
  In c (int_repr z) -> c = 45%N \/ (48 <= c <= 57)%N.
Proof.
  unfold int_repr. destruct (Z.to_int z) as [d|d]; simpl.
  - intro H. right. exact (string_of_uint_chars d c H).
  - intros [<-|H]; [left; reflexivity | right; exact (string_of_uint_chars d c H)].
Qed.

(** X16. When the metric names have no newline and the values are integers
    of no more digits than the digit limit allows (or the limit is off), the
    block is rendered and has exactly one line per entry, in the order of
    the dictionary: the decimal text of an integer cannot break a line. *)
Theorem integer_metrics_one_line_each (rt : runtime) (metrics : metrics_dict) :
  metrics <> [] ->
  (forall entry, In entry metrics ->
     ~ In NL (fst entry)
     /\ exists z, snd entry = MInt z
                  /\ (int_max_str_digits rt = 0
                      \/ List.length (int_repr (Z.abs z))
                         <= int_max_str_digits rt)) ->
  exists block,
    metrics_str rt metrics = Return block
    /\ split_on NL block
       = map (fun entry =>
                lit "- " ++ fst entry ++ lit ": " ++ value_text (snd entry))
           metrics.
Proof.
  intros Hne H. exists (join [NL] (map line_text metrics)). split.
  - apply metrics_str_renders. intros entry Hin.
    destruct (H entry Hin) as [_ (z & -> & Hz)]. exact Hz.
  - apply split_join.
    + destruct metrics; [congruence | discriminate].
    + intros x Hx. apply in_map_iff in Hx as (entry & <- & Hin).
      destruct (H entry Hin) as [Hname (z & Hz & _)].
      apply line_text_one_line; [exact Hname|].
      rewrite Hz. cbn [value_text]. intro Hnl.
      apply int_repr_chars in Hnl as [Hc|[Hc _]].
      * discriminate Hc.
      * vm_compute in Hc. apply Hc. reflexivity.
Qed.

End PromptFacts.

Lemma echoed_prompt_gives_placeholders_witness :
  analyze (fun prompt_text => prompt_text) cpython_default
    [(lit "accuracy", MFloat (lit "0.91")); (lit "samples", MInt 1200)]
  = Return (PyDict
      [(lit "label",
        PyStr (lit "Status Label (e.g., No Drift, Major Drift, Critical Failure)"));
       (lit "explanation",
        PyStr (lit "Detailed explanation of why you assigned this label."))]).
Proof.
  apply (@echoed_prompt_gives_placeholders cpython_default
           [(lit "accuracy", MFloat (lit "0.91")); (lit "samples", MInt 1200)]
           (lit "- accuracy: 0.91" ++ [NL] ++ lit "- samples: 1200")).
  - simpl. lia.
  - vm_compute. reflexivity.
  - vm_compute. intuition discriminate.
Defined.

Lemma integer_metrics_one_line_each_witness :
  exists block,
    metrics_str cpython_default
      [(lit "samples", MInt 1200); (lit "delta", MInt (-3))]
    = Return block
    /\ split_on NL block = [lit "- samples: 1200"; lit "- delta: -3"].
Proof.
  apply (@integer_metrics_one_line_each cpython_default
           [(lit "samples", MInt 1200); (lit "delta", MInt (-3))]).
  - discriminate.
  - intros entry Hin.
    destruct Hin as [<-|[<-|[]]];
      (split; [vm_compute; intuition discriminate
              | eexists; split; [reflexivity | right; vm_compute; lia]]).
Defined.
